(** * The persistent parameter store of selfdrive/common/params.cc

    A shallow embedding of the on-disk key-value store: the key registry
    [keys], the directory bootstrap, and the [Params] operations put, get,
    remove, readAll and clearAll, over an explicit model of the file system
    and of the system calls the code issues.

    The file system is a finite map from path strings to nodes.  Paths are
    looked up literally, as the strings the code builds with [+]; key names
    are the ASCII identifiers of the registry, so a key addresses the one
    directory entry [params_path + "/d/" + key].  Keys that are paths, which
    the code accepts as well, are the subject of the module [Resolving]: it
    runs the same code with every path resolved, and agrees with the
    operations here on plain names.  The store is sequential: one caller at
    a time, the advisory lock only leaves its lock file behind.

    Every system call takes its outcome from an explicit environment
    argument: [None] lets the call proceed on the modelled file system,
    [Some errno] makes it fail with that error and change nothing. *)

From Stdlib Require Import ZArith Ascii.
From stdpp Require Import gmap strings list fin_maps.

Local Open Scope string_scope.
Local Open Scope Z_scope.

(** ** File system and system calls

    HANDLE_EINTR (util.h, not part of the sources) re-issues a call that a
    signal interrupted; the outcome modelled for such a call is that of its
    last attempt. *)

(** Parameter values are uninterpreted bytes. *)
Abbreviation byte := Byte.byte.

Inductive node :=
  | File (content : list byte)
  | Dir
  | Link (target : string).

Abbreviation filesystem := (gmap string node).

(** Result of a system call: success, or failure with the [errno] it sets. *)
Inductive sysret :=
  | Ok
  | Err (errno : Z).

(** The C return value: 0 on success, -1 on failure. *)
Definition ret_int (r : sysret) : Z :=
  match r with Ok => 0 | Err _ => -1 end.

Definition ENOENT : Z := 2.
Definition EEXIST : Z := 17.
Definition EISDIR : Z := 21.
Definition EIO : Z := 5.
Definition EACCES : Z := 13.

(** unlink(2): removes the directory entry [path]. *)
Definition unlink (fault : option Z) (fs : filesystem) (path : string)
  : sysret * filesystem :=
  match fault, fs !! path with
  | Some e, _ => (Err e, fs)
  | None, None => (Err ENOENT, fs)
  | None, Some Dir => (Err EISDIR, fs)
  | None, Some _ => (Ok, delete path fs)
  end.

(** rename(2): atomically moves [oldpath] onto [newpath], replacing it. *)
Definition rename (fault : option Z) (fs : filesystem) (oldpath newpath : string)
  : sysret * filesystem :=
  match fault, fs !! oldpath with
  | Some e, _ => (Err e, fs)
  | None, None => (Err ENOENT, fs)
  | None, Some n => (Ok, <[newpath := n]> (delete oldpath fs))
  end.

(** mkstemp(3) on the template [stem + "XXXXXX"]: the six X are overwritten in
    place by characters of the library's choice, [pick]; the file is created
    exclusively, so a name already in use is no success.  Returns the final
    path on success ([tmp_fd >= 0]) and [None] on failure ([tmp_fd < 0]). *)
Definition mkstemp (pick : option string) (fs : filesystem) (stem : string)
  : option string * filesystem :=
  match pick with
  | None => (None, fs)
  | Some suffix =>
      let path := stem +:+ suffix in
      match fs !! path with
      | Some _ => (None, fs)
      | None => (Some path, <[path := File []]> fs)
      end
  end.

(** mkdtemp(3), as [mkstemp] but creating a directory. *)
Definition mkdtemp (pick : option string) (fs : filesystem) (stem : string)
  : option string * filesystem :=
  match pick with
  | None => (None, fs)
  | Some suffix =>
      let path := stem +:+ suffix in
      match fs !! path with
      | Some _ => (None, fs)
      | None => (Some path, <[path := Dir]> fs)
      end
  end.

(** symlink(2): creates [linkpath] pointing at [target]. *)
Definition symlink (fault : option Z) (fs : filesystem) (target linkpath : string)
  : sysret * filesystem :=
  match fault, fs !! linkpath with
  | Some e, _ => (Err e, fs)
  | None, Some _ => (Err EEXIST, fs)
  | None, None => (Ok, <[linkpath := Link target]> fs)
  end.

(** write(2) under HANDLE_EINTR, on a freshly created file: [None] is an
    error (-1), [Some n] writes the first [n] bytes of the buffer (at most all
    of it) and returns their number. *)
Definition write (ret : option nat) (fs : filesystem) (path : string)
    (buf : list byte) : Z * filesystem :=
  match ret with
  | None => (-1, fs)
  | Some n =>
      let n' := Nat.min n (length buf) in
      (Z.of_nat n', <[path := File (take n' buf)]> fs)
  end.

(** fsync(2) and close(2) change nothing that the store can observe. *)
Definition fsync (fault : option Z) : sysret :=
  match fault with None => Ok | Some e => Err e end.

Definition close (fault : option Z) : sysret :=
  match fault with None => Ok | Some e => Err e end.

(** ** Helpers of the anonymous namespace *)

Record fsync_dir_env := {
  dir_open : option Z;
  dir_fsync : option Z;
  dir_close : option Z }.

Definition fsync_dir (e : fsync_dir_env) (path : string) : Z :=
  match dir_open e with
  | Some _ => -1
  | None =>
      let result := ret_int (fsync (dir_fsync e)) in
      let result_close := ret_int (close (dir_close e)) in
      if result_close <? 0 then result_close else result
  end.

(** Modelled from the spec: util::file_exists is not part of the sources; a
    path exists when the file system has a node for it. *)
Definition file_exists (fs : filesystem) (fn : string) : bool :=
  bool_decide (is_Some (fs !! fn)).

(** Modelled from the spec: util::create_directories is not part of the
    sources; on success the directory exists afterwards, on failure nothing
    changes. *)
Definition create_directories (ok : bool) (fs : filesystem) (dir : string)
  : bool * filesystem :=
  if ok then (true, <[dir := Dir]> fs) else (false, fs).

(** Modelled from the spec: util::read_file is not part of the sources; it
    yields the full contents of the file, and the empty string when there is
    no such file. *)
Definition read_file (fs : filesystem) (fn : string) : list byte :=
  match fs !! fn with
  | Some (File content) => content
  | _ => []
  end.

(** ** Directory bootstrap *)

Record boot_env := {
  boot_create_directories : bool;
  boot_mkdtemp : option string;
  boot_symlink : option Z;
  boot_rename : option Z }.

Definition create_params_path (e : boot_env) (fs : filesystem)
    (param_path key_path : string) : bool * filesystem :=
  (* Make sure params path exists *)
  let '(made, fs) :=
    if negb (file_exists fs param_path)
    then create_directories (boot_create_directories e) fs param_path
    else (true, fs) in
  if negb made then (false, fs) else
  (* See if the symlink exists, otherwise create it *)
  if negb (file_exists fs key_path) then
    match mkdtemp (boot_mkdtemp e) fs (param_path +:+ "/.tmp_") with
    | (None, fs) => (false, fs)
    | (Some tmp_dir, fs) =>
        let link_path := tmp_dir +:+ ".link" in
        match symlink (boot_symlink e) fs tmp_dir link_path with
        | (Err _, fs) => (false, fs)
        | (Ok, fs) =>
            (* don't return false if it has been created by other *)
            match rename (boot_rename e) fs link_path key_path with
            | (Ok, fs) => (true, fs)
            | (Err errno, fs) =>
                if negb (errno =? EEXIST) then (false, fs) else (true, fs)
            end
        end
    end
  else (true, fs).

(** [None] stands for the std::runtime_error the function throws. *)
Definition ensure_params_path (e : boot_env) (fs : filesystem)
    (params_path : string) : option filesystem :=
  match create_params_path e fs params_path (params_path +:+ "/d") with
  | (true, fs) => Some fs
  | (false, _) => None
  end.

(** The environment [e] with the outcome of the final rename replaced. *)
Definition with_rename (e : boot_env) (r : option Z) : boot_env :=
  {| boot_create_directories := boot_create_directories e;
     boot_mkdtemp := boot_mkdtemp e;
     boot_symlink := boot_symlink e;
     boot_rename := r |}.

(** ** FileLock *)

(** [lock] opens the lock file with O_CREAT, which creates it when it is
    missing, and then takes the flock; a failure is logged and the caller
    goes on without the lock.  [unlock] closes the descriptor. *)
Definition FileLock_lock (open_fault : option Z) (fs : filesystem)
    (fn_ : string) : filesystem :=
  match open_fault with
  | Some _ => fs
  | None =>
      match fs !! fn_ with
      | Some _ => fs
      | None => <[fn_ := File []]> fs
      end
  end.

(** ** The key registry *)

Section KeyTable.

  (** The values of enum ParamKeyType are declared in params.h, which is not
      part of the sources: the table is given for any choice of them. *)
  Variables PERSISTENT CLEAR_ON_MANAGER_START CLEAR_ON_PANDA_DISCONNECT
            CLEAR_ON_IGNITION_ON CLEAR_ON_IGNITION_OFF DONT_LOG : Z.

  Local Infix ".|." := Z.lor (at level 50, left associativity).

Definition keys_table : list (string * Z) := [
  ("AccessToken", CLEAR_ON_MANAGER_START .|. DONT_LOG);
  ("AthenadPid", PERSISTENT);
  ("BootedOnroad", CLEAR_ON_MANAGER_START .|. CLEAR_ON_IGNITION_OFF);
  ("CalibrationParams", PERSISTENT);
  ("CarBatteryCapacity", PERSISTENT);
  ("CarParams", CLEAR_ON_MANAGER_START .|. CLEAR_ON_PANDA_DISCONNECT .|. CLEAR_ON_IGNITION_ON);
  ("CarParamsCache", CLEAR_ON_MANAGER_START .|. CLEAR_ON_PANDA_DISCONNECT);
  ("CarVin", CLEAR_ON_MANAGER_START .|. CLEAR_ON_PANDA_DISCONNECT .|. CLEAR_ON_IGNITION_ON);
  ("CommunityFeaturesToggle", PERSISTENT);
  ("CompletedTrainingVersion", PERSISTENT);
  ("ControlsReady", CLEAR_ON_MANAGER_START .|. CLEAR_ON_PANDA_DISCONNECT .|. CLEAR_ON_IGNITION_ON);
  ("CurrentRoute", CLEAR_ON_MANAGER_START .|. CLEAR_ON_IGNITION_ON);
  ("DisablePowerDown", PERSISTENT);
  ("DisableRadar_Allow", PERSISTENT);
  ("DisableRadar", PERSISTENT);
  ("DisableUpdates", PERSISTENT);
  ("DongleId", PERSISTENT);
  ("DoUninstall", CLEAR_ON_MANAGER_START);
  ("EnableWideCamera", CLEAR_ON_MANAGER_START);
  ("EndToEndToggle", PERSISTENT);
  ("ForcePowerDown", CLEAR_ON_MANAGER_START);
  ("GitBranch", PERSISTENT);
  ("GitCommit", PERSISTENT);
  ("GitDiff", PERSISTENT);
  ("GithubSshKeys", PERSISTENT);
  ("GithubUsername", PERSISTENT);
  ("GitRemote", PERSISTENT);
  ("GsmApn", PERSISTENT);
  ("GsmRoaming", PERSISTENT);
  ("HardwareSerial", PERSISTENT);
  ("HasAcceptedTerms", PERSISTENT);
  ("IMEI", PERSISTENT);
  ("InstallDate", PERSISTENT);
  ("IsDriverViewEnabled", CLEAR_ON_MANAGER_START);
  ("IsLdwEnabled", PERSISTENT);
  ("IsMetric", PERSISTENT);
  ("IsOffroad", CLEAR_ON_MANAGER_START);
  ("IsOnroad", PERSISTENT);
  ("IsRHD", PERSISTENT);
  ("IsTakingSnapshot", CLEAR_ON_MANAGER_START);
  ("IsUpdateAvailable", CLEAR_ON_MANAGER_START);
  ("JoystickDebugMode", CLEAR_ON_MANAGER_START .|. CLEAR_ON_IGNITION_OFF);
  ("LastAthenaPingTime", CLEAR_ON_MANAGER_START);
  ("LastGPSPosition", PERSISTENT);
  ("LastUpdateException", PERSISTENT);
  ("LastUpdateTime", PERSISTENT);
  ("LiveParameters", PERSISTENT);
  ("NavDestination", CLEAR_ON_MANAGER_START .|. CLEAR_ON_IGNITION_OFF);
  ("NavSettingTime24h", PERSISTENT);
  ("OpenpilotEnabledToggle", PERSISTENT);
  ("PandaHeartbeatLost", CLEAR_ON_MANAGER_START .|. CLEAR_ON_IGNITION_OFF);
  ("Passive", PERSISTENT);
  ("PrimeRedirected", PERSISTENT);
  ("RecordFront", PERSISTENT);
  ("RecordFrontLock", PERSISTENT);
  ("ReleaseNotes", PERSISTENT);
  ("ShouldDoUpdate", CLEAR_ON_MANAGER_START);
  ("SshEnabled", PERSISTENT);
  ("SubscriberInfo", PERSISTENT);
  ("TermsVersion", PERSISTENT);
  ("Timezone", PERSISTENT);
  ("TrainingVersion", PERSISTENT);
  ("UpdateAvailable", CLEAR_ON_MANAGER_START);
  ("UpdateFailedCount", CLEAR_ON_MANAGER_START);
  ("UploadRaw", PERSISTENT);
  ("Version", PERSISTENT);
  ("VisionRadarToggle", PERSISTENT);
  ("ApiCache_Device", PERSISTENT);
  ("ApiCache_DriveStats", PERSISTENT);
  ("ApiCache_NavDestinations", PERSISTENT);
  ("ApiCache_Owner", PERSISTENT);
  ("Offroad_ChargeDisabled", CLEAR_ON_MANAGER_START .|. CLEAR_ON_PANDA_DISCONNECT);
  ("Offroad_ConnectivityNeeded", CLEAR_ON_MANAGER_START);
  ("Offroad_ConnectivityNeededPrompt", CLEAR_ON_MANAGER_START);
  ("Offroad_HardwareUnsupported", CLEAR_ON_MANAGER_START);
  ("Offroad_InvalidTime", CLEAR_ON_MANAGER_START);
  ("Offroad_IsTakingSnapshot", CLEAR_ON_MANAGER_START);
  ("Offroad_NeosUpdate", CLEAR_ON_MANAGER_START);
  ("Offroad_StorageMissing", CLEAR_ON_MANAGER_START);
  ("Offroad_PandaFirmwareMismatch", CLEAR_ON_MANAGER_START .|. CLEAR_ON_PANDA_DISCONNECT);
  ("Offroad_TemperatureTooHigh", CLEAR_ON_MANAGER_START);
  ("Offroad_UnofficialHardware", CLEAR_ON_MANAGER_START);
  ("Offroad_UpdateFailed", CLEAR_ON_MANAGER_START);
  ("GitCommitRemote", PERSISTENT);
  ("IsOpenpilotViewEnabled", CLEAR_ON_MANAGER_START);
  ("OpkrAutoShutdown", PERSISTENT);
  ("OpkrForceShutdown", PERSISTENT);
  ("OpkrForceShutdownTrigger", PERSISTENT);
  ("OpkrAutoScreenOff", PERSISTENT);
  ("OpkrUIBrightness", PERSISTENT);
  ("OpkrUIVolumeBoost", PERSISTENT);
  ("OpkrEnableDriverMonitoring", PERSISTENT);
  ("OpkrEnableLogger", PERSISTENT);
  ("OpkrEnableGetoffAlert", PERSISTENT);
  ("OpkrAutoResume", PERSISTENT);
  ("OpkrVariableCruise", PERSISTENT);
  ("OpkrLaneChangeSpeed", PERSISTENT);
  ("OpkrAutoLaneChangeDelay", PERSISTENT);
  ("OpkrSteerAngleCorrection", PERSISTENT);
  ("PutPrebuiltOn", PERSISTENT);
  ("LdwsCarFix", PERSISTENT);
  ("LateralControlMethod", PERSISTENT);
  ("CruiseStatemodeSelInit", PERSISTENT);
  ("OuterLoopGain", PERSISTENT);
  ("InnerLoopGain", PERSISTENT);
  ("TimeConstant", PERSISTENT);
  ("ActuatorEffectiveness", PERSISTENT);
  ("Scale", PERSISTENT);
  ("LqrKi", PERSISTENT);
  ("DcGain", PERSISTENT);
  ("IgnoreZone", PERSISTENT);
  ("PidKp", PERSISTENT);
  ("PidKi", PERSISTENT);
  ("PidKd", PERSISTENT);
  ("PidKf", PERSISTENT);
  ("CameraOffsetAdj", PERSISTENT);
  ("PathOffsetAdj", PERSISTENT);
  ("SteerRatioAdj", PERSISTENT);
  ("SteerRatioMaxAdj", PERSISTENT);
  ("SteerActuatorDelayAdj", PERSISTENT);
  ("SteerRateCostAdj", PERSISTENT);
  ("SteerLimitTimerAdj", PERSISTENT);
  ("TireStiffnessFactorAdj", PERSISTENT);
  ("SteerMaxAdj", PERSISTENT);
  ("SteerMaxBaseAdj", PERSISTENT);
  ("SteerDeltaUpAdj", PERSISTENT);
  ("SteerDeltaUpBaseAdj", PERSISTENT);
  ("SteerDeltaDownAdj", PERSISTENT);
  ("SteerDeltaDownBaseAdj", PERSISTENT);
  ("SteerMaxvAdj", PERSISTENT);
  ("OpkrBatteryChargingControl", PERSISTENT);
  ("OpkrBatteryChargingMin", PERSISTENT);
  ("OpkrBatteryChargingMax", PERSISTENT);
  ("LeftCurvOffsetAdj", PERSISTENT);
  ("RightCurvOffsetAdj", PERSISTENT);
  ("DebugUi1", PERSISTENT);
  ("DebugUi2", PERSISTENT);
  ("LongLogDisplay", PERSISTENT);
  ("OpkrBlindSpotDetect", PERSISTENT);
  ("OpkrMaxAngleLimit", PERSISTENT);
  ("OpkrSpeedLimitOffset", PERSISTENT);
  ("OpkrLiveSteerRatio", PERSISTENT);
  ("OpkrVariableSteerMax", PERSISTENT);
  ("OpkrVariableSteerDelta", PERSISTENT);
  ("FingerprintTwoSet", PERSISTENT);
  ("OpkrDrivingRecord", PERSISTENT);
  ("OpkrTurnSteeringDisable", PERSISTENT);
  ("CarModel", PERSISTENT);
  ("OpkrHotspotOnBoot", PERSISTENT);
  ("OpkrSSHLegacy", PERSISTENT);
  ("CruiseOverMaxSpeed", PERSISTENT);
  ("JustDoGearD", PERSISTENT);
  ("LanelessMode", PERSISTENT);
  ("ComIssueGone", PERSISTENT);
  ("MaxSteer", PERSISTENT);
  ("MaxRTDelta", PERSISTENT);
  ("MaxRateUp", PERSISTENT);
  ("MaxRateDown", PERSISTENT);
  ("SteerThreshold", PERSISTENT);
  ("RecordingCount", PERSISTENT);
  ("RecordingQuality", PERSISTENT);
  ("CruiseGapAdjust", PERSISTENT);
  ("AutoEnable", PERSISTENT);
  ("AutoEnableSpeed", PERSISTENT);
  ("CruiseAutoRes", PERSISTENT);
  ("AutoResOption", PERSISTENT);
  ("AutoResCondition", PERSISTENT);
  ("SteerWindDown", PERSISTENT);
  ("OpkrMonitoringMode", PERSISTENT);
  ("OpkrMonitorEyesThreshold", PERSISTENT);
  ("OpkrMonitorNormalEyesThreshold", PERSISTENT);
  ("OpkrMonitorBlinkThreshold", PERSISTENT);
  ("MadModeEnabled", PERSISTENT);
  ("CommaStockUI", PERSISTENT);
  ("OpkrEnableUploader", PERSISTENT);
  ("OpkrMapEnable", CLEAR_ON_MANAGER_START);
  ("WhitePandaSupport", PERSISTENT);
  ("SteerWarningFix", PERSISTENT);
  ("OpkrRunNaviOnBoot", PERSISTENT);
  ("CruiseGapNow", PERSISTENT);
  ("CruiseGap1", PERSISTENT);
  ("CruiseGap2", PERSISTENT);
  ("CruiseGap3", PERSISTENT);
  ("CruiseGap4", PERSISTENT);
  ("DynamicTR", PERSISTENT);
  ("OpkrBattLess", PERSISTENT);
  ("LCTimingFactorUD", PERSISTENT);
  ("LCTimingFactor30", PERSISTENT);
  ("LCTimingFactor60", PERSISTENT);
  ("LCTimingFactor80", PERSISTENT);
  ("LCTimingFactor110", PERSISTENT);
  ("OpkrUIBrightnessOff", PERSISTENT);
  ("LCTimingFactorEnable", PERSISTENT);
  ("SafetyCamDecelDistGain", PERSISTENT);
  ("OpkrLiveTunePanelEnable", PERSISTENT);
  ("KRDateShow", PERSISTENT);
  ("KRTimeShow", PERSISTENT);
  ("RadarLongHelper", PERSISTENT);
  ("GitPullOnBoot", PERSISTENT);
  ("LiveSteerRatioPercent", PERSISTENT);
  ("StoppingDistAdj", PERSISTENT);
  ("ShowError", PERSISTENT);
  ("CommaLong", PERSISTENT);
  ("AutoResLimitTime", PERSISTENT);
  ("VCurvSpeed30", PERSISTENT);
  ("VCurvSpeed50", PERSISTENT);
  ("VCurvSpeed70", PERSISTENT);
  ("VCurvSpeed90", PERSISTENT);
  ("VCurvSpeedUD", PERSISTENT);
  ("OCurvOffset", PERSISTENT);
  ("StockNaviSpeedEnabled", PERSISTENT)
].

(** The initial value of the global [keys]: an initializer list inserts its
    entries in order and keeps the first one of any name. *)
Definition keys : gmap string Z := list_to_map keys_table.

End KeyTable.

(** [keys.find(key) != keys.end()] *)
Definition checkKey (keys : gmap string Z) (key : string) : bool :=
  match keys !! key with
  | Some _ => true
  | None => false
  end.

(** [keys[key]]: operator[] of std::unordered_map returns the mapped value,
    and for a name that has no entry it first inserts one with the value 0. *)
Definition getKeyType (keys : gmap string Z) (key : string)
  : Z * gmap string Z :=
  match keys !! key with
  | Some type => (type, keys)
  | None => (0, <[key := 0]> keys)
  end.

(** [strip_prefix pre s] is what follows [pre] in [s], if [s] starts with it. *)
Fixpoint strip_prefix (pre s : string) : option string :=
  match pre, s with
  | EmptyString, _ => Some s
  | String a pre', String b s' =>
      if Ascii.eqb a b then strip_prefix pre' s' else None
  | String _ _, EmptyString => None
  end.

Fixpoint has_slash (s : string) : bool :=
  match s with
  | EmptyString => false
  | String a s' => Ascii.eqb a "/"%char || has_slash s'
  end.

(** Modelled from the spec: util::read_files_in_dir is not part of the
    sources; it yields a snapshot of every file currently in the directory,
    each with its full contents, under the file's name. *)
Definition read_files_in_dir (fs : filesystem) (dir : string)
  : gmap string (list byte) :=
  map_fold (λ path n acc,
      match n, strip_prefix (dir +:+ "/") path with
      | File content, Some name =>
          if has_slash name then acc else <[name := content]> acc
      | _, _ => acc
      end) ∅ fs.

(** ** Signals *)

Inductive signum := SIGINT | SIGTERM.

Inductive sighandler :=
  | SIG_DFL
  | SIG_IGN
  | params_sig_handler
  | user_handler (id : nat).

(** The process state the blocking read touches: the installed handlers and
    the global flag [params_do_exit]. *)
Record process := {
  handler_SIGINT : sighandler;
  handler_SIGTERM : sighandler;
  params_do_exit : Z }.

Definition handler_of (p : process) (sig : signum) : sighandler :=
  match sig with
  | SIGINT => handler_SIGINT p
  | SIGTERM => handler_SIGTERM p
  end.

(** std::signal: installs [h] for [sig] and returns the previous handler. *)
Definition signal (p : process) (sig : signum) (h : sighandler)
  : sighandler * process :=
  match sig with
  | SIGINT =>
      (handler_SIGINT p,
       {| handler_SIGINT := h; handler_SIGTERM := handler_SIGTERM p;
          params_do_exit := params_do_exit p |})
  | SIGTERM =>
      (handler_SIGTERM p,
       {| handler_SIGINT := handler_SIGINT p; handler_SIGTERM := h;
          params_do_exit := params_do_exit p |})
  end.

Definition set_do_exit (p : process) (v : Z) : process :=
  {| handler_SIGINT := handler_SIGINT p; handler_SIGTERM := handler_SIGTERM p;
     params_do_exit := v |}.

(** Delivery of a signal: [params_sig_handler] sets the flag; what any other
    handler does is not the store's business. *)
Definition deliver (p : process) (sig : signum) : process :=
  match handler_of p sig with
  | params_sig_handler => set_do_exit p 1
  | _ => p
  end.

(** What the surroundings do between two evaluations of the loop condition
    of the blocking read: the signals delivered to the process since the
    previous evaluation (for the first one, since the handlers were
    installed), and the file system as the read that follows finds it, other
    processes being free to change it while this one sleeps.  A signal that
    arrives after the last evaluation and before the handlers are restored
    belongs to no tick: it would raise the flag, and change neither the value
    returned nor the handlers restored. *)
Record tick := {
  delivered : list signum;
  seen : filesystem }.

Definition is_empty (value : list byte) : bool :=
  match value with [] => true | _ => false end.

(** ** The store operations *)

Module Params.

Record put_env := {
  put_mkstemp : option string;
  put_write : option nat;
  put_fsync : option Z;
  put_lock : option Z;
  put_rename : option Z;
  put_fsync_dir : fsync_dir_env;
  put_close : option Z;
  put_unlink : option Z }.

Record remove_env := {
  remove_lock : option Z;
  remove_unlink : option Z;
  remove_fsync_dir : fsync_dir_env }.

(** [clear_unlink key] is the outcome of the unlink issued for [key]. *)
Record clear_env := {
  clear_lock : option Z;
  clear_unlink : string → option Z;
  clear_fsync_dir : fsync_dir_env }.

Section Store.

  (** The member [params_path], bound at construction. *)
  Variable params_path : string.

Definition put (e : put_env) (fs : filesystem) (key : string)
    (value : list byte) : Z * filesystem :=
  (* 1) Create temp file *)
  match mkstemp (put_mkstemp e) fs (params_path +:+ "/.tmp_value_") with
  | (None, fs) => (-1, fs)
  | (Some tmp_path, fs) =>
      let '(result, fs) :=
        (* Write value to temp. *)
        let '(bytes_written, fs) := write (put_write e) fs tmp_path value in
        if (bytes_written <? 0)
           || negb (bytes_written =? Z.of_nat (length value))
        then (-20, fs) else
        (* fsync to force persist the changes. *)
        let result := ret_int (fsync (put_fsync e)) in
        if result <? 0 then (result, fs) else
        let fs := FileLock_lock (put_lock e) fs (params_path +:+ "/.lock") in
        (* Move temp into place. *)
        let path := params_path +:+ "/d/" +:+ key in
        let '(r, fs) := rename (put_rename e) fs tmp_path path in
        let result := ret_int r in
        if result <? 0 then (result, fs) else
        (* fsync parent directory *)
        let path := params_path +:+ "/d" in
        (fsync_dir (put_fsync_dir e) path, fs) in
      let _ := close (put_close e) in
      let '(_, fs) := unlink (put_unlink e) fs tmp_path in
      (result, fs)
  end.

Definition remove (e : remove_env) (fs : filesystem) (key : string)
  : Z * filesystem :=
  let fs := FileLock_lock (remove_lock e) fs (params_path +:+ "/.lock") in
  (* Delete value. *)
  let path := params_path +:+ "/d/" +:+ key in
  let '(r, fs) := unlink (remove_unlink e) fs path in
  let result := ret_int r in
  if negb (result =? 0) then (result, fs) else
  (* fsync parent directory *)
  let path := params_path +:+ "/d" in
  (fsync_dir (remove_fsync_dir e) path, fs).

(** [get(key, false)]: one read, no lock. *)
Definition get (fs : filesystem) (key : string) : list byte :=
  let path := params_path +:+ "/d/" +:+ key in
  read_file fs path.

(** The loop of [get(key, true)].  [i] counts the evaluations of the loop
    condition so far; each one costs a unit of [fuel], and [None] says the
    loop is still running when the fuel is spent. *)
Fixpoint get_poll (fuel : nat) (env : nat → tick) (i : nat) (p : process)
    (path : string) (value : list byte) : option (list byte * process) :=
  match fuel with
  | O => None
  | S fuel' =>
      let p := foldl deliver p (delivered (env i)) in
      if params_do_exit p =? 0 then
        let value := read_file (seen (env i)) path in
        if negb (is_empty value) then Some (value, p)
        else (* util::sleep_for(100) *)
          get_poll fuel' env (S i) p path value
      else Some (value, p)
  end.

(** [get(key, true)]: blocking read until successful. *)
Definition get_blocking (fuel : nat) (env : nat → tick) (p : process)
    (key : string) : option (list byte * process) :=
  let path := params_path +:+ "/d/" +:+ key in
  let p := set_do_exit p 0 in
  let '(prev_handler_sigint, p) := signal p SIGINT params_sig_handler in
  let '(prev_handler_sigterm, p) := signal p SIGTERM params_sig_handler in
  match get_poll fuel env 0 p path [] with
  | None => None
  | Some (value, p) =>
      let '(_, p) := signal p SIGINT prev_handler_sigint in
      let '(_, p) := signal p SIGTERM prev_handler_sigterm in
      Some (value, p)
  end.

Definition readAll (lock : option Z) (fs : filesystem)
  : gmap string (list byte) * filesystem :=
  let fs := FileLock_lock lock fs (params_path +:+ "/.lock") in
  let key_path := params_path +:+ "/d" in
  (read_files_in_dir fs key_path, fs).

(** The body of the loop of [clearAll] for one registry entry. *)
Definition clear_entry (e : clear_env) (key_type : Z) (fs : filesystem)
    (entry : string * Z) : filesystem :=
  let '(key, type) := entry in
  if negb (Z.land type key_type =? 0) then
    let path := params_path +:+ "/d/" +:+ key in
    (unlink (clear_unlink e key) fs path).2
  else fs.

Definition clearAll (e : clear_env) (keys : gmap string Z) (fs : filesystem)
    (key_type : Z) : filesystem :=
  let fs := FileLock_lock (clear_lock e) fs (params_path +:+ "/.lock") in
  let fs := foldl (clear_entry e key_type) fs (map_to_list keys) in
  (* fsync parent directory *)
  let path := params_path +:+ "/d" in
  let _ := fsync_dir (clear_fsync_dir e) path in
  fs.

End Store.

End Params.

(** ** Calls on a store object *)

(** The state a store object works on: the global registry, the file system
    and the signal state of the process. *)
Record World := {
  w_keys : gmap string Z;
  w_fs : filesystem;
  w_proc : process }.

Inductive call :=
  | Put (e : Params.put_env) (key : string) (value : list byte)
  | Remove (e : Params.remove_env) (key : string)
  | Get (key : string)
  | GetBlocking (fuel : nat) (env : nat → tick) (key : string)
  | ReadAll (lock : option Z)
  | ClearAll (e : Params.clear_env) (key_type : Z)
  | CheckKey (key : string)
  | GetKeyType (key : string).

(** The state after a call; [None] when a blocking read has not returned
    within its fuel. *)
Definition run (params_path : string) (c : call) (w : World) : option World :=
  match c with
  | Put e key value =>
      Some {| w_keys := w_keys w;
              w_fs := (Params.put params_path e (w_fs w) key value).2;
              w_proc := w_proc w |}
  | Remove e key =>
      Some {| w_keys := w_keys w;
              w_fs := (Params.remove params_path e (w_fs w) key).2;
              w_proc := w_proc w |}
  | Get key => Some w
  | GetBlocking fuel env key =>
      match Params.get_blocking params_path fuel env (w_proc w) key with
      | None => None
      | Some (_, p) =>
          Some {| w_keys := w_keys w; w_fs := w_fs w; w_proc := p |}
      end
  | ReadAll lock =>
      Some {| w_keys := w_keys w;
              w_fs := (Params.readAll params_path lock (w_fs w)).2;
              w_proc := w_proc w |}
  | ClearAll e key_type =>
      Some {| w_keys := w_keys w;
              w_fs := Params.clearAll params_path e (w_keys w) (w_fs w) key_type;
              w_proc := w_proc w |}
  | CheckKey key => Some w
  | GetKeyType key =>
      Some {| w_keys := (getKeyType (w_keys w) key).2;
              w_fs := w_fs w;
              w_proc := w_proc w |}
  end.

(** ** Failure cases of put, in the words of the specification *)

Inductive put_failure_case :=
  | TempFileCreation
  | ShortWrite
  | SyncFailure
  | RenameFailure.

(** The first step of [put] that fails under the environment [e], if one of
    the four named steps does. *)
Definition put_failure (params_path : string) (e : Params.put_env)
    (fs : filesystem) (value : list byte) : option put_failure_case :=
  match Params.put_mkstemp e with
  | None => Some TempFileCreation
  | Some suffix =>
      if file_exists fs ((params_path +:+ "/.tmp_value_") +:+ suffix)
      then Some TempFileCreation
      else
        match Params.put_write e with
        | None => Some ShortWrite
        | Some n =>
            if (n <? length value)%nat then Some ShortWrite
            else
              match Params.put_fsync e, Params.put_rename e with
              | Some _, _ => Some SyncFailure
              | None, Some _ => Some RenameFailure
              | None, None => None
              end
        end
  end.

(** ** Readings of the specification that are compared with the code *)

(** A failed put or remove leaves the store unchanged: the key reads as it
    did before the call. *)
Definition failure_leaves_store_unchanged (params_path : string) : Prop :=
  ∀ pe re (fs : filesystem) key (value : list byte),
    ((Params.put params_path pe fs key value).1 ≠ 0 →
     Params.get params_path (Params.put params_path pe fs key value).2 key
     = Params.get params_path fs key)
    ∧ ((Params.remove params_path re fs key).1 ≠ 0 →
       Params.get params_path (Params.remove params_path re fs key).2 key
       = Params.get params_path fs key).

(** Each failure case of put yields a return value of its own. *)
Definition put_failures_distinguishable (params_path : string) : Prop :=
  ∀ e1 e2 (fs : filesystem) key (value : list byte) c1 c2,
    put_failure params_path e1 fs value = Some c1 →
    put_failure params_path e2 fs value = Some c2 →
    c1 ≠ c2 →
    (Params.put params_path e1 fs key value).1
    ≠ (Params.put params_path e2 fs key value).1.

(** clearAll removes exactly the registered keys whose mask meets the mask
    given. *)
Definition clearAll_removes_exactly (params_path : string) : Prop :=
  ∀ e (keys : gmap string Z) (fs : filesystem) (key_type : Z) key,
    (∀ type, keys !! key = Some type → Z.land type key_type ≠ 0 →
       Params.get params_path
         (Params.clearAll params_path e keys fs key_type) key = [])
    ∧ ((∀ type, keys !! key = Some type → Z.land type key_type = 0) →
       Params.get params_path
         (Params.clearAll params_path e keys fs key_type) key
       = Params.get params_path fs key).

(** ** Sample data *)

Definition bytes_of (s : string) : list byte := String.list_byte_of_string s.

Definition sample_root : string := "/data/params".

(** A bootstrapped store that holds one parameter. *)
Definition sample_fs : filesystem :=
  {[ "/data/params" := Dir;
     "/data/params/.tmp_Qx7Lp2" := Dir;
     "/data/params/d" := Link "/data/params/.tmp_Qx7Lp2";
     "/data/params/d/DongleId" := File (bytes_of "old") ]}.

(** The same store with the ignition-scoped CarVin set as well. *)
Definition sample_fs_vin : filesystem :=
  <["/data/params/d/CarVin" := File (bytes_of "1HGCM82633A")]> sample_fs.

(** The registry with the tags of ParamKeyType as six distinct bits. *)
Definition sample_keys : gmap string Z := keys 2 4 8 16 32 64.

Definition no_dir_faults : fsync_dir_env :=
  {| dir_open := None; dir_fsync := None; dir_close := None |}.

Definition dir_sync_fails : fsync_dir_env :=
  {| dir_open := None; dir_fsync := Some EIO; dir_close := None |}.

Definition put_env_of (mk : option string) (wr : option nat)
    (fsy ren : option Z) (fd : fsync_dir_env) : Params.put_env :=
  {| Params.put_mkstemp := mk;
     Params.put_write := wr;
     Params.put_fsync := fsy;
     Params.put_lock := None;
     Params.put_rename := ren;
     Params.put_fsync_dir := fd;
     Params.put_close := None;
     Params.put_unlink := None |}.

Definition put_no_faults : Params.put_env :=
  put_env_of (Some "a1B2c3") (Some 4096%nat) None None no_dir_faults.
Definition put_mkstemp_fails : Params.put_env :=
  put_env_of None (Some 4096%nat) None None no_dir_faults.
Definition put_short_write : Params.put_env :=
  put_env_of (Some "a1B2c3") (Some 2%nat) None None no_dir_faults.
Definition put_fsync_fails : Params.put_env :=
  put_env_of (Some "a1B2c3") (Some 4096%nat) (Some EIO) None no_dir_faults.
Definition put_rename_fails : Params.put_env :=
  put_env_of (Some "a1B2c3") (Some 4096%nat) None (Some EACCES) no_dir_faults.
Definition put_dir_sync_fails : Params.put_env :=
  put_env_of (Some "a1B2c3") (Some 4096%nat) None None dir_sync_fails.

Definition remove_no_faults : Params.remove_env :=
  {| Params.remove_lock := None;
     Params.remove_unlink := None;
     Params.remove_fsync_dir := no_dir_faults |}.

Definition clear_no_faults : Params.clear_env :=
  {| Params.clear_lock := None;
     Params.clear_unlink := λ _, None;
     Params.clear_fsync_dir := no_dir_faults |}.

Definition clear_unlink_denied : Params.clear_env :=
  {| Params.clear_lock := None;
     Params.clear_unlink := λ _, Some EACCES;
     Params.clear_fsync_dir := no_dir_faults |}.

Definition boot_no_faults : boot_env :=
  {| boot_create_directories := true;
     boot_mkdtemp := Some "Qx7Lp2";
     boot_symlink := None;
     boot_rename := None |}.

Definition sample_process : process :=
  {| handler_SIGINT := user_handler 1;
     handler_SIGTERM := SIG_DFL;
     params_do_exit := 0 |}.

(** Nobody ever sets CarVin, and a SIGINT arrives during the second sleep. *)
Definition sample_ticks (i : nat) : tick :=
  {| delivered := if (i =? 2)%nat then [SIGINT] else [];
     seen := sample_fs |}.

(** ** Names that are paths

    The operations above hand [params_path + "/d/" + key] to the system
    calls as it is written, which names the file of the key when the key is
    a plain file name.  The code accepts any string as a key, and the kernel
    resolves the path it is given: the definitions below run the same code
    with every path resolved at the system call that receives it. *)

(** The components of a path, split at every '/'. *)
Fixpoint components (path : string) : list string :=
  match path with
  | EmptyString => [EmptyString]
  | String a rest =>
      if Ascii.eqb a "/"%char then EmptyString :: components rest
      else
        match components rest with
        | c :: cs => String a c :: cs
        | [] => [String a EmptyString]
        end
  end.

(** One step of the walk along a path: an empty component and "." stay
    where they are, ".." goes up (and stays at the top), a name goes down. *)
Definition walk (stack : list string) (c : string) : list string :=
  if String.eqb c "" || String.eqb c "." then stack
  else if String.eqb c ".." then removelast stack
  else stack ++ [c].

Definition join (stack : list string) : string :=
  foldr (λ c rest, "/" +:+ c +:+ rest) "" stack.

(** The canonical form of an absolute path: no empty component, no "." and
    no "..".  Symlinks are not followed: as everywhere in this model, root/d
    is the name under which the keyed directory is known, and going up from
    it leads to the root, as it does from the sibling directory it points
    at. *)
Definition normalize (path : string) : string :=
  join (foldl walk [] (components path)).

(** A plain file name: not empty, no '/', and neither "." nor "..". *)
Definition is_plain_name (name : string) : bool :=
  negb (String.eqb name "") && negb (String.eqb name ".")
  && negb (String.eqb name "..") && negb (has_slash name).

(** mkstemp(3) with the path resolved, see [mkstemp]. *)
Definition mkstemp_resolved (resolve : string → string) (pick : option string)
    (fs : filesystem) (stem : string) : option string * filesystem :=
  match pick with
  | None => (None, fs)
  | Some suffix =>
      let path := stem +:+ suffix in
      match fs !! resolve path with
      | Some _ => (None, fs)
      | None => (Some path, <[resolve path := File []]> fs)
      end
  end.

Module Resolving.

Section Store.

(** How the kernel resolves a path, and the member [params_path]. *)
Variable resolve : string → string.
Variable params_path : string.

Definition put (e : Params.put_env) (fs : filesystem) (key : string)
    (value : list byte) : Z * filesystem :=
  (* 1) Create temp file *)
  match mkstemp_resolved resolve (Params.put_mkstemp e) fs
          (params_path +:+ "/.tmp_value_") with
  | (None, fs) => (-1, fs)
  | (Some tmp_path, fs) =>
      let '(result, fs) :=
        (* Write value to temp. *)
        let '(bytes_written, fs) :=
          write (Params.put_write e) fs (resolve tmp_path) value in
        if (bytes_written <? 0)
           || negb (bytes_written =? Z.of_nat (length value))
        then (-20, fs) else
        (* fsync to force persist the changes. *)
        let result := ret_int (fsync (Params.put_fsync e)) in
        if result <? 0 then (result, fs) else
        let fs := FileLock_lock (Params.put_lock e) fs
                    (resolve (params_path +:+ "/.lock")) in
        (* Move temp into place. *)
        let path := params_path +:+ "/d/" +:+ key in
        let '(r, fs) :=
          rename (Params.put_rename e) fs (resolve tmp_path) (resolve path) in
        let result := ret_int r in
        if result <? 0 then (result, fs) else
        (* fsync parent directory *)
        let path := params_path +:+ "/d" in
        (fsync_dir (Params.put_fsync_dir e) path, fs) in
      let _ := close (Params.put_close e) in
      let '(_, fs) := unlink (Params.put_unlink e) fs (resolve tmp_path) in
      (result, fs)
  end.

Definition remove (e : Params.remove_env) (fs : filesystem) (key : string)
  : Z * filesystem :=
  let fs := FileLock_lock (Params.remove_lock e) fs
              (resolve (params_path +:+ "/.lock")) in
  (* Delete value. *)
  let path := params_path +:+ "/d/" +:+ key in
  let '(r, fs) := unlink (Params.remove_unlink e) fs (resolve path) in
  let result := ret_int r in
  if negb (result =? 0) then (result, fs) else
  (* fsync parent directory *)
  let path := params_path +:+ "/d" in
  (fsync_dir (Params.remove_fsync_dir e) path, fs).

(** [get(key, false)] *)
Definition get (fs : filesystem) (key : string) : list byte :=
  let path := params_path +:+ "/d/" +:+ key in
  read_file fs (resolve path).

End Store.

End Resolving.

(** The reading of the specification: a put or a remove on a key leaves
    every other key alone, whatever strings the two names are. *)
Definition frame_for_all_names (params_path : string) : Prop :=
  ∀ pe re (fs : filesystem) k k' (value : list byte),
    k ≠ k' →
    Resolving.get normalize params_path
      (Resolving.put normalize params_path pe fs k value).2 k'
    = Resolving.get normalize params_path fs k'
    ∧ Resolving.get normalize params_path
        (Resolving.remove normalize params_path re fs k).2 k'
      = Resolving.get normalize params_path fs k'.

(** ** More sample data *)

(** A short write whose temp file cannot be unlinked afterwards. *)
Definition put_short_write_no_cleanup : Params.put_env :=
  {| Params.put_mkstemp := Some "a1B2c3";
     Params.put_write := Some 2%nat;
     Params.put_fsync := None;
     Params.put_lock := None;
     Params.put_rename := None;
     Params.put_fsync_dir := no_dir_faults;
     Params.put_close := None;
     Params.put_unlink := Some EACCES |}.

(** The unlink of CarVin is refused, any other goes through. *)
Definition clear_vin_denied : Params.clear_env :=
  {| Params.clear_lock := None;
     Params.clear_unlink :=
       λ key, if String.eqb key "CarVin" then Some EACCES else None;
     Params.clear_fsync_dir := no_dir_faults |}.

(** The sample store with CarVin and CurrentRoute set, both of them keys
    that carry CLEAR_ON_IGNITION_ON. *)
Definition sample_fs_route : filesystem :=
  <["/data/params/d/CurrentRoute" := File (bytes_of "2026-10-30--04-26")]>
    sample_fs_vin.

(** A store whose root/d has gone missing, the parameter file apart. *)
Definition sample_fs_no_link : filesystem :=
  {[ "/data/params" := Dir;
     "/data/params/d/DongleId" := File (bytes_of "old") ]}.

Definition sample_fs_root_only : filesystem := {[ "/data/params" := Dir ]}.

Definition sample_world : World :=
  {| w_keys := sample_keys; w_fs := sample_fs_vin; w_proc := sample_process |}.

Definition sample_world_after_getKeyType : World :=
  {| w_keys := (getKeyType sample_keys "NotAKey").2;
     w_fs := sample_fs_vin;
     w_proc := sample_process |}.

(** No signal; CarVin is set between the first poll and the second. *)
Definition sample_ticks_value (i : nat) : tick :=
  {| delivered := [];
     seen := if (i =? 0)%nat then sample_fs else sample_fs_vin |}.

(** No signal and nobody ever sets CarVin. *)
Definition sample_ticks_quiet (i : nat) : tick :=
  {| delivered := []; seen := sample_fs |}.

(** ** Auxiliary predicates *)

(** [fs'] has every node of [fs], unchanged, and every path reads in [fs']
    as it does in [fs]. *)
Definition keeps_files (fs fs' : filesystem) : Prop :=
  (∀ p n, fs !! p = Some n → fs' !! p = Some n)
  ∧ (∀ p, read_file fs' p = read_file fs p).

(** * Properties *)

(** ** Paths *)

Lemma append_assoc (a b c : string) : (a +:+ b) +:+ c = a +:+ (b +:+ c).
Proof.
  induction a as [|x a IH]; [done|].
  change (String x ((a +:+ b) +:+ c) = String x (a +:+ (b +:+ c))).
  by rewrite IH.
Qed.

Lemma key_path_inj (root k k' : string) :
  root +:+ "/d/" +:+ k = root +:+ "/d/" +:+ k' → k = k'.
Proof. intros H. by do 2 apply String.app_inj in H. Qed.

Lemma tmp_value_path_ne_key (root suffix k : string) :
  (root +:+ "/.tmp_value_") +:+ suffix ≠ root +:+ "/d/" +:+ k.
Proof.
  rewrite append_assoc. intros H. apply String.app_inj in H. discriminate H.
Qed.

Lemma lock_path_ne_key (root k : string) :
  root +:+ "/.lock" ≠ root +:+ "/d/" +:+ k.
Proof. intros H. apply String.app_inj in H. discriminate H. Qed.

(** ** System calls *)

Lemma unlink_lookup_ne fault (fs : filesystem) p q :
  p ≠ q → (unlink fault fs p).2 !! q = fs !! q.
Proof.
  intros Hne. unfold unlink.
  destruct fault; [done|]. destruct (fs !! p) as [[]|]; simpl; try done;
    by rewrite lookup_delete_ne.
Qed.

Lemma unlink_Ok_gone fault (fs : filesystem) p :
  (unlink fault fs p).1 = Ok → (unlink fault fs p).2 !! p = None.
Proof.
  unfold unlink. destruct fault; [done|].
  destruct (fs !! p) as [[]|]; simpl; try done;
    intros _; apply lookup_delete_eq.
Qed.

Lemma unlink_Err_same fault (fs : filesystem) p e :
  (unlink fault fs p).1 = Err e → (unlink fault fs p).2 = fs.
Proof.
  unfold unlink. destruct fault; [done|].
  by destruct (fs !! p) as [[]|].
Qed.

Lemma FileLock_lock_lookup_ne fault (fs : filesystem) fn p :
  fn ≠ p → FileLock_lock fault fs fn !! p = fs !! p.
Proof.
  intros Hne. unfold FileLock_lock. destruct fault; [done|].
  destruct (fs !! fn); [done|]. by rewrite lookup_insert_ne.
Qed.

Lemma FileLock_lock_lookup_Some fault (fs : filesystem) fn p n :
  fs !! p = Some n → FileLock_lock fault fs fn !! p = Some n.
Proof.
  intros Hp. unfold FileLock_lock. destruct fault; [done|].
  destruct (fs !! fn) eqn:Hfn; [done|].
  rewrite lookup_insert_ne; [done|]. congruence.
Qed.

Lemma read_file_ext (fs fs' : filesystem) p :
  fs' !! p = fs !! p → read_file fs' p = read_file fs p.
Proof. unfold read_file. by intros ->. Qed.

(** ** put and remove, step by step *)

Section StoreFacts.
  Variable params_path : string.
  Local Abbreviation key_path k := (params_path +:+ "/d/" +:+ k).

(** Closes a branch in which put gives up before the rename: the status is
    the one the code sets, and only the temp file and the lock file were
    touched. *)
Local Ltac put_gives_up Hfin Hframe :=
  rewrite Hfin; simpl; split; [done|]; intros ?; rewrite Hframe;
  rewrite ?FileLock_lock_lookup_ne by apply lock_path_ne_key;
  by rewrite !lookup_insert_ne.

(** What a put does, by the first step that fails: when one of the four
    named steps fails, the status is -20 for the write and -1 otherwise and
    no key reads differently; when none does, the status is that of the
    directory sync, the key holds the whole payload and no other key reads
    differently. *)
Lemma put_outcome e (fs : filesystem) key value :
  match put_failure params_path e fs value with
  | Some c =>
      (Params.put params_path e fs key value).1
        = match c with ShortWrite => -20 | _ => -1 end
      ∧ ∀ k, (Params.put params_path e fs key value).2 !! key_path k
             = fs !! key_path k
  | None =>
      (Params.put params_path e fs key value).1
        = fsync_dir (Params.put_fsync_dir e) (params_path +:+ "/d")
      ∧ (Params.put params_path e fs key value).2 !! key_path key
        = Some (File value)
      ∧ ∀ k, k ≠ key →
             (Params.put params_path e fs key value).2 !! key_path k
             = fs !! key_path k
  end.
Proof.
  unfold put_failure, Params.put, mkstemp, file_exists.
  destruct (Params.put_mkstemp e) as [suffix|]; [|by split].
  set (tmp := (params_path +:+ "/.tmp_value_") +:+ suffix).
  assert (Htmp : ∀ k, tmp ≠ key_path k)
    by (intros k; apply tmp_value_path_ne_key).
  case_bool_decide as Hex.
  { destruct Hex as [n Hn]. rewrite Hn. by split. }
  apply eq_None_not_Some in Hex. rewrite Hex.
  assert (Hfin : ∀ (r : Z) (g : filesystem),
    (let '(_, fs0) := unlink (Params.put_unlink e) g tmp in (r, fs0))
    = (r, (unlink (Params.put_unlink e) g tmp).2)).
  { intros r g. by destruct (unlink _ g tmp). }
  assert (Hframe : ∀ (g : filesystem) k,
    (unlink (Params.put_unlink e) g tmp).2 !! key_path k = g !! key_path k).
  { intros g k. apply unlink_lookup_ne, Htmp. }
  unfold write. destruct (Params.put_write e) as [n|]; simpl;
    [|put_gives_up Hfin Hframe].
  destruct (n <? length value)%nat eqn:Hn.
  { apply Nat.ltb_lt in Hn.
    replace (Z.of_nat (n `min` length value) =? Z.of_nat (length value))
      with false by (symmetry; apply Z.eqb_neq; lia).
    rewrite orb_true_r. put_gives_up Hfin Hframe. }
  apply Nat.ltb_ge in Hn.
  replace (n `min` length value)%nat with (length value) by lia.
  rewrite Z.eqb_refl, firstn_all.
  replace (Z.of_nat (length value) <? 0) with false
    by (symmetry; apply Z.ltb_ge; lia).
  simpl.
  destruct (Params.put_fsync e); simpl; [put_gives_up Hfin Hframe|].
  unfold rename. rewrite insert_insert_eq.
  erewrite (FileLock_lock_lookup_Some _ _ _ tmp); [|apply lookup_insert_eq].
  destruct (Params.put_rename e); simpl; [put_gives_up Hfin Hframe|].
  rewrite Hfin; simpl. split; [done|]. split.
  - rewrite Hframe. apply lookup_insert_eq.
  - intros k Hk. rewrite Hframe.
    rewrite lookup_insert_ne by (intros H; apply key_path_inj in H; done).
    rewrite lookup_delete_ne by apply Htmp.
    rewrite FileLock_lock_lookup_ne by apply lock_path_ne_key.
    by rewrite lookup_insert_ne.
Qed.


Lemma fsync_dir_values e path : fsync_dir e path = 0 ∨ fsync_dir e path = -1.
Proof.
  unfold fsync_dir. destruct (dir_open e); [by right|].
  destruct (dir_fsync e), (dir_close e); simpl; auto.
Qed.

(** put returns 0, -1 or -20, and nothing else. *)
Lemma put_status_values e (fs : filesystem) key value :
  (Params.put params_path e fs key value).1 = 0
  ∨ (Params.put params_path e fs key value).1 = -1
  ∨ (Params.put params_path e fs key value).1 = -20.
Proof.
  pose proof (put_outcome e fs key value) as H.
  destruct (put_failure params_path e fs value) as [c|].
  - destruct H as [-> _]. destruct c; auto.
  - destruct H as [-> _].
    destruct (fsync_dir_values (Params.put_fsync_dir e) (params_path +:+ "/d"))
      as [-> | ->]; auto.
Qed.

(** Either the unlink of [remove] fails and nothing a read can see changes,
    or it succeeds, the file is gone, and the status is that of the
    directory sync. *)
Lemma remove_outcome e (fs : filesystem) key :
  ((Params.remove params_path e fs key).1 = -1
   ∧ ∀ k, (Params.remove params_path e fs key).2 !! key_path k
          = fs !! key_path k)
  ∨ ((Params.remove params_path e fs key).1
       = fsync_dir (Params.remove_fsync_dir e) (params_path +:+ "/d")
     ∧ is_Some (fs !! key_path key)
     ∧ (Params.remove params_path e fs key).2 !! key_path key = None
     ∧ ∀ k, k ≠ key →
            (Params.remove params_path e fs key).2 !! key_path k
            = fs !! key_path k).
Proof.
  unfold Params.remove.
  set (g := FileLock_lock (Params.remove_lock e) fs (params_path +:+ "/.lock")).
  assert (Hg : ∀ k, g !! key_path k = fs !! key_path k).
  { intros k. apply FileLock_lock_lookup_ne, lock_path_ne_key. }
  pose proof (unlink_Ok_gone (Params.remove_unlink e) g (key_path key)) as Hgone.
  pose proof (unlink_Err_same (Params.remove_unlink e) g (key_path key)) as Hsame.
  assert (Hsome : (unlink (Params.remove_unlink e) g (key_path key)).1 = Ok →
                  is_Some (g !! key_path key)).
  { unfold unlink. destruct (Params.remove_unlink e); [done|].
    destruct (g !! key_path key); [eauto|done]. }
  pose proof (λ k, unlink_lookup_ne (Params.remove_unlink e) g
                     (key_path key) (key_path k)) as Hne.
  destruct (unlink (Params.remove_unlink e) g (key_path key)) as [[|errno] g'];
    simpl in *.
  - right. split; [done|]. rewrite <- Hg. split; [by apply Hsome|].
    split; [by apply Hgone|]. intros k Hk. rewrite Hne, Hg; [done|].
    intros H. apply key_path_inj in H. done.
  - left. split; [done|]. intros k. rewrite (Hsame errno eq_refl). apply Hg.
Qed.

End StoreFacts.

(** ** Reading back what was written *)

Section ReadBack.

  Variable params_path : string.

  Local Abbreviation put := (Params.put params_path).
  Local Abbreviation remove := (Params.remove params_path).
  Local Abbreviation get := (Params.get params_path).

(** C1 (round trip): for every key name and every byte payload, after a put
    that returned 0 (success) a non-blocking get of that key returns exactly
    the payload.  This covers the empty payload, for which get returns the
    empty string. *)
Theorem put_get_roundtrip e (fs fs' : filesystem) key (value : list byte) :
  put e fs key value = (0, fs') → get fs' key = value.
Proof.
  intros Hput. pose proof (put_outcome params_path e fs key value) as H.
  rewrite Hput in H. simpl in H.
  destruct (put_failure params_path e fs value) as [c|].
  - destruct H as [H _]. by destruct c.
  - destruct H as (_ & Hkey & _). unfold Params.get, read_file. by rewrite Hkey.
Qed.

(** C2, as amended: when put or remove returns a failure status, a read of
    the key gives either what it gave before the call or the complete new
    state (the whole payload after put, absent after remove), never part of
    a payload; and unless the step that failed is the final directory sync,
    every key reads as before the call. *)
Theorem failed_put_remove_visibility pe re (fs : filesystem) key
    (value : list byte) :
  ((put pe fs key value).1 ≠ 0 →
     (get (put pe fs key value).2 key = get fs key
      ∨ get (put pe fs key value).2 key = value)
     ∧ (fsync_dir (Params.put_fsync_dir pe) (params_path +:+ "/d") = 0 →
        ∀ k, get (put pe fs key value).2 k = get fs k))
  ∧ ((remove re fs key).1 ≠ 0 →
     (get (remove re fs key).2 key = get fs key
      ∨ get (remove re fs key).2 key = [])
     ∧ (fsync_dir (Params.remove_fsync_dir re) (params_path +:+ "/d") = 0 →
        ∀ k, get (remove re fs key).2 k = get fs k)).
Proof.
  split.
  - intros Hr. pose proof (put_outcome params_path pe fs key value) as H.
    destruct (put_failure params_path pe fs value) as [c|].
    + destruct H as [_ Hsame]. split.
      * left. apply read_file_ext, Hsame.
      * intros _ k. apply read_file_ext, Hsame.
    + destruct H as (Hst & Hkey & _). split.
      * right. unfold Params.get, read_file. by rewrite Hkey.
      * intros Hsync. congruence.
  - intros Hr. destruct (remove_outcome params_path re fs key)
      as [[_ Hsame]|(Hst & _ & Hkey & _)].
    + split.
      * left. apply read_file_ext, Hsame.
      * intros _ k. apply read_file_ext, Hsame.
    + split.
      * right. unfold Params.get, read_file. by rewrite Hkey.
      * intros Hsync. congruence.
Qed.

(** C5, as amended: put returns a negative status, and does not throw, in
    each of its failure cases; a short or partial write returns -20, which
    tells it apart from the other three, while temp-file creation failure,
    sync failure and rename failure all return -1. *)
Theorem put_failure_status e (fs : filesystem) key (value : list byte) c :
  put_failure params_path e fs value = Some c →
  (put e fs key value).1 < 0
  ∧ (put e fs key value).1 = match c with ShortWrite => -20 | _ => -1 end.
Proof.
  intros Hc. pose proof (put_outcome params_path e fs key value) as H.
  rewrite Hc in H. destruct H as [-> _]. by destruct c.
Qed.

(** C6: after a remove that returned 0 a read of the key finds nothing; and
    a remove of a key that has no file returns a failure status. *)
Theorem remove_get_absent e (fs : filesystem) key :
  ((remove e fs key).1 = 0 → get (remove e fs key).2 key = [])
  ∧ (file_exists fs (params_path +:+ "/d/" +:+ key) = false →
     (remove e fs key).1 ≠ 0).
Proof.
  destruct (remove_outcome params_path e fs key)
    as [[Hst _]|(_ & Hsome & Hkey & _)].
  - rewrite Hst. split; [done|]. by intros _.
  - split.
    + intros _. unfold Params.get, read_file. by rewrite Hkey.
    + unfold file_exists. intros Hno. by apply bool_decide_eq_false in Hno.
Qed.

(** C7: a non-blocking get returns the empty string, an ordinary return
    value, when the key has no file and when its file is empty, so the caller
    cannot tell the two apart. *)
Theorem get_missing_or_empty (fs1 fs2 : filesystem) key :
  fs1 !! (params_path +:+ "/d/" +:+ key) = None →
  fs2 !! (params_path +:+ "/d/" +:+ key) = Some (File []) →
  get fs1 key = [] ∧ get fs2 key = [] ∧ get fs1 key = get fs2 key.
Proof.
  intros H1 H2. unfold Params.get, read_file. by rewrite H1, H2.
Qed.

End ReadBack.

(** ** clearAll *)

Section ClearAll.

  Variable params_path : string.

  Local Abbreviation key_path k := (params_path +:+ "/d/" +:+ k).
  Local Abbreviation get := (Params.get params_path).
  Local Abbreviation clearAll := (Params.clearAll params_path).
  Local Abbreviation clear_entry := (Params.clear_entry params_path).

(** An unlink never brings contents into being. *)
Lemma unlink_read_empty fault (fs : filesystem) p q :
  read_file fs q = [] → read_file (unlink fault fs p).2 q = [].
Proof.
  intros Hq. destruct (decide (p = q)) as [->|Hne].
  - unfold unlink. destruct fault; [done|].
    destruct (fs !! q) as [[]|] eqn:Hl; simpl; try done;
      unfold read_file; by rewrite lookup_delete_eq.
  - unfold read_file in *. by rewrite unlink_lookup_ne.
Qed.

(** An unlink that meets no fault leaves nothing to read under its path. *)
Lemma unlink_no_fault_read (fs : filesystem) p :
  read_file (unlink None fs p).2 p = [].
Proof.
  unfold unlink, read_file. destruct (fs !! p) as [[]|] eqn:Hl; simpl;
    rewrite ?lookup_delete_eq, ?Hl; done.
Qed.

Lemma clear_entry_read_empty e m (fs : filesystem) entry q :
  read_file fs q = [] → read_file (clear_entry e m fs entry) q = [].
Proof.
  intros Hq. destruct entry as [k t]. unfold Params.clear_entry.
  destruct (Z.land t m =? 0); simpl; [done|]. by apply unlink_read_empty.
Qed.

Lemma clear_entries_read_empty e m l (fs : filesystem) q :
  read_file fs q = [] → read_file (foldl (clear_entry e m) fs l) q = [].
Proof.
  revert fs. induction l as [|entry l IH]; intros fs Hq; simpl; [done|].
  by apply IH, clear_entry_read_empty.
Qed.

(** The loop removes the file of a listed key whose mask meets [m], unless
    the unlink issued for it is made to fail. *)
Lemma clear_entries_hit e m l (fs : filesystem) k t :
  (k, t) ∈ l → Z.land t m ≠ 0 → Params.clear_unlink e k = None →
  read_file (foldl (clear_entry e m) fs l) (key_path k) = [].
Proof.
  intros Hin Hhit Hok. revert fs.
  induction l as [|entry l IH]; intros fs; [by apply elem_of_nil in Hin|].
  apply elem_of_cons in Hin as [<-|Hin]; simpl.
  - apply clear_entries_read_empty. unfold Params.clear_entry.
    apply Z.eqb_neq in Hhit. rewrite Hhit, Hok. simpl.
    apply unlink_no_fault_read.
  - by apply IH.
Qed.

(** The loop leaves alone every path that is not the file of a listed key
    whose mask meets [m]. *)
Lemma clear_entries_miss e m l (fs : filesystem) q :
  (∀ k t, (k, t) ∈ l → Z.land t m ≠ 0 → key_path k ≠ q) →
  foldl (clear_entry e m) fs l !! q = fs !! q.
Proof.
  revert fs. induction l as [|[k t] l IH]; intros fs Hmiss; simpl; [done|].
  rewrite IH.
  - unfold Params.clear_entry. destruct (Z.land t m =? 0) eqn:Hz; simpl; [done|].
    apply unlink_lookup_ne. apply (Hmiss k t); [left|]. by apply Z.eqb_neq.
  - intros k' t' Hin. apply Hmiss. by right.
Qed.

(** C4, as amended: for every category mask, clearAll unlinks the file of
    every registered key whose mask has a bit in common with it and ignores
    the status of the unlink; afterwards a read finds nothing for each such
    key whose unlink did not fail, and every key whose mask has no bit in
    common with the mask given, or that is not registered, reads as before. *)
Theorem clearAll_selective e (keys : gmap string Z) (fs : filesystem)
    (key_type : Z) key :
  (∀ type, keys !! key = Some type → Z.land type key_type ≠ 0 →
     Params.clear_unlink e key = None →
     get (clearAll e keys fs key_type) key = [])
  ∧ ((∀ type, keys !! key = Some type → Z.land type key_type = 0) →
     get (clearAll e keys fs key_type) key = get fs key).
Proof.
  unfold Params.clearAll, Params.get. split.
  - intros type Hreg Hhit Hok.
    apply (clear_entries_hit _ _ _ _ _ type); [|done..].
    by apply elem_of_map_to_list.
  - intros Hmiss. apply read_file_ext. rewrite clear_entries_miss.
    + apply FileLock_lock_lookup_ne, lock_path_ne_key.
    + intros k t Hin Hhit Heq. apply key_path_inj in Heq as ->.
      apply elem_of_map_to_list in Hin. by apply Hhit, Hmiss.
Qed.

End ClearAll.

(** ** The registry *)

(** No call other than getKeyType touches the registry. *)
Lemma run_keeps_registry params_path c (w w' : World) :
  (∀ key, c ≠ GetKeyType key) →
  run params_path c w = Some w' → w_keys w' = w_keys w.
Proof.
  intros Hc Hrun. destruct c; simpl in Hrun; simplify_eq; try done.
  - destruct (Params.get_blocking _ _ _ _ _) as [[? ?]|]; by simplify_eq.
  - by destruct (Hc key).
Qed.

(** getKeyType leaves the registry alone when the name is registered. *)
Lemma getKeyType_registered (keys : gmap string Z) key :
  checkKey keys key = true → (getKeyType keys key).2 = keys.
Proof. unfold checkKey, getKeyType. by destruct (keys !! key). Qed.

(** getKeyType on a name that is not registered adds the name. *)
Lemma getKeyType_unregistered (keys : gmap string Z) key :
  checkKey keys key = false →
  getKeyType keys key = (0, <[key := 0]> keys)
  ∧ checkKey (getKeyType keys key).2 key = true.
Proof.
  unfold checkKey, getKeyType. destruct (keys !! key) eqn:H; [done|].
  intros _. split; [done|]. simpl. by rewrite lookup_insert_eq.
Qed.

(** ** The blocking read *)

Section Blocking.

  Variable params_path : string.

  Local Abbreviation get := (Params.get params_path).
  Local Abbreviation get_poll := (Params.get_poll).
  Local Abbreviation get_blocking := (Params.get_blocking params_path).

Lemma deliver_handlers p sig :
  handler_SIGINT (deliver p sig) = handler_SIGINT p
  ∧ handler_SIGTERM (deliver p sig) = handler_SIGTERM p.
Proof. unfold deliver. by destruct (handler_of p sig). Qed.

Lemma deliveries_handlers sigs p :
  handler_SIGINT (foldl deliver p sigs) = handler_SIGINT p
  ∧ handler_SIGTERM (foldl deliver p sigs) = handler_SIGTERM p.
Proof.
  revert p. induction sigs as [|sig sigs IH]; intros p; simpl; [done|].
  destruct (IH (deliver p sig)) as [-> ->]. apply deliver_handlers.
Qed.

(** While both handlers are [params_sig_handler], any delivery raises the
    flag, and nothing lowers it again. *)
Lemma deliveries_raise_flag sigs p :
  handler_SIGINT p = params_sig_handler →
  handler_SIGTERM p = params_sig_handler →
  sigs ≠ [] ∨ params_do_exit p = 1 →
  params_do_exit (foldl deliver p sigs) = 1.
Proof.
  revert p. induction sigs as [|sig sigs IH]; intros p Hint Hterm Hcause; simpl.
  - by destruct Hcause.
  - destruct (deliver_handlers p sig) as [Hi Ht].
    apply IH; [congruence..|]. right.
    unfold deliver. by destruct sig; simpl; rewrite ?Hint, ?Hterm.
Qed.

Lemma get_poll_handlers fuel env i p path value value' p' :
  get_poll fuel env i p path value = Some (value', p') →
  handler_SIGINT p' = handler_SIGINT p
  ∧ handler_SIGTERM p' = handler_SIGTERM p.
Proof.
  revert i p value. induction fuel as [|fuel IH]; intros i p value; simpl;
    [done|].
  destruct (deliveries_handlers (delivered (env i)) p) as [Hi Ht].
  destruct (params_do_exit _ =? 0).
  - destruct (is_empty _); simpl.
    + intros H. apply IH in H as [-> ->]. done.
    + intros H. by simplify_eq.
  - intros H. by simplify_eq.
Qed.

(** More fuel does not change the result of a loop that has ended. *)
Lemma get_poll_more_fuel fuel fuel' env i p path value r :
  (fuel ≤ fuel')%nat →
  get_poll fuel env i p path value = Some r →
  get_poll fuel' env i p path value = Some r.
Proof.
  revert fuel' i p value. induction fuel as [|fuel IH];
    intros fuel' i p value Hle; simpl; [done|].
  destruct fuel' as [|fuel']; [lia|]. simpl.
  destruct (params_do_exit _ =? 0); [|done].
  destruct (is_empty _); simpl; [|done]. apply IH. lia.
Qed.

(** With both handlers installed and nothing but empty reads, the loop ends
    no later than the first evaluation of its condition that follows a
    delivery, and hands back the empty string. *)
Lemma get_poll_cancel env path d i p :
  handler_SIGINT p = params_sig_handler →
  handler_SIGTERM p = params_sig_handler →
  (∀ j, read_file (seen (env j)) path = []) →
  delivered (env (i + d)%nat) ≠ [] →
  ∃ p', get_poll (S d) env i p path [] = Some ([], p').
Proof.
  intros Hint Hterm Hread. revert i p Hint Hterm.
  induction d as [|d IH]; intros i p Hint Hterm Hsig.
  - rewrite Nat.add_0_r in Hsig. simpl.
    rewrite deliveries_raise_flag by auto. simpl. eauto.
  - cbn [Params.get_poll].
    destruct (deliveries_handlers (delivered (env i)) p) as [Hi Ht].
    destruct (params_do_exit _ =? 0); [|eauto].
    rewrite Hread. simpl. apply IH; [congruence..|].
    by replace (S i + d)%nat with (i + S d)%nat by lia.
Qed.

(** C8: a blocking get on a key for which every read comes back empty ends
    once a cancellation signal is delivered: it returns the empty string no
    later than the first evaluation of the loop condition after the
    delivery, that is within the one sleep in progress, whatever fuel beyond
    that it is given; and on every exit, with a value or cancelled, the
    handlers of SIGINT and SIGTERM are the ones installed before the call. *)
Theorem blocking_get_cancellation env p key :
  (∀ n, (∀ i, get (seen (env i)) key = []) →
        delivered (env n) ≠ [] →
        ∃ p', (∀ fuel, (n < fuel)%nat →
                 get_blocking fuel env p key = Some ([], p'))
              ∧ handler_SIGINT p' = handler_SIGINT p
              ∧ handler_SIGTERM p' = handler_SIGTERM p)
  ∧ (∀ fuel value p',
        get_blocking fuel env p key = Some (value, p') →
        handler_SIGINT p' = handler_SIGINT p
        ∧ handler_SIGTERM p' = handler_SIGTERM p).
Proof.
  split.
  - intros n Hread Hsig. unfold Params.get_blocking. simpl.
    set (q := {| handler_SIGINT := params_sig_handler;
                 handler_SIGTERM := params_sig_handler;
                 params_do_exit := 0 |}).
    destruct (get_poll_cancel env (params_path +:+ "/d/" +:+ key) n 0%nat q)
      as [q' Hq']; [done..|].
    eexists. split; [|split].
    + intros fuel Hfuel.
      rewrite (get_poll_more_fuel (S n) fuel _ _ _ _ _ _ ltac:(lia) Hq').
      reflexivity.
    + done.
    + done.
  - intros fuel value p'. unfold Params.get_blocking. simpl.
    destruct (get_poll _ _ _ _ _ _) as [[v q']|]; [|done].
    intros H. by simplify_eq.
Qed.

End Blocking.

(** ** Directory bootstrap *)

Lemma append_empty_r (a : string) : a +:+ "" = a.
Proof.
  induction a as [|x a IH]; [done|].
  change (String x (a +:+ "") = String x a). by rewrite IH.
Qed.

Lemma append_ne_self (a b : string) : b ≠ "" → a +:+ b ≠ a.
Proof.
  intros Hb H. rewrite <- (append_empty_r a) in H at 2.
  by apply String.app_inj in H.
Qed.

Lemma file_exists_true (fs : filesystem) p :
  file_exists fs p = true ↔ is_Some (fs !! p).
Proof. unfold file_exists. apply bool_decide_eq_true. Qed.

Lemma create_params_path_exists e (fs : filesystem) root :
  file_exists fs root = true →
  file_exists fs (root +:+ "/d") = true →
  create_params_path e fs root (root +:+ "/d") = (true, fs).
Proof.
  intros H1 H2. unfold create_params_path. rewrite H1. simpl. by rewrite H2.
Qed.

Lemma create_params_path_publishes e (fs fs' : filesystem) root :
  create_params_path e fs root (root +:+ "/d") = (true, fs') →
  boot_rename e = None →
  file_exists fs' root = true ∧ file_exists fs' (root +:+ "/d") = true.
Proof.
  unfold create_params_path, create_directories, mkdtemp, symlink, rename.
  intros H Hren. rewrite Hren in H.
  destruct (if negb (file_exists fs root) then _ else _) as [made g] eqn:Hst.
  assert (Hg : made = true → is_Some (g !! root)).
  { destruct (file_exists fs root) eqn:Hroot; simpl in Hst.
    - simplify_eq. intros _. by apply file_exists_true.
    - destruct (boot_create_directories e); simplify_eq; try done.
      intros _. rewrite lookup_insert_eq. eauto. }
  destruct made; simpl in H; [|done]. specialize (Hg eq_refl).
  destruct (file_exists g (root +:+ "/d")) eqn:Hkey; simpl in H.
  { simplify_eq. split; [by apply file_exists_true|done]. }
  destruct (boot_mkdtemp e) as [suffix|]; [|done].
  rewrite append_assoc in H.
  set (tmp := root +:+ "/.tmp_" +:+ suffix) in *.
  destruct (g !! tmp) eqn:Htmp; [done|].
  destruct (boot_symlink e); [done|].
  assert (Hne : tmp ≠ tmp +:+ ".link").
  { intros Heq. by apply (append_ne_self tmp ".link"). }
  rewrite lookup_insert_ne in H by done.
  destruct (g !! (tmp +:+ ".link")) eqn:Hlink; [done|].
  rewrite lookup_insert_eq in H. simplify_eq.
  split; apply file_exists_true.
  - rewrite lookup_insert_ne by (apply append_ne_self; done).
    rewrite lookup_delete_ne.
    2:{ unfold tmp. rewrite !append_assoc. apply append_ne_self. done. }
    rewrite lookup_insert_ne.
    2:{ unfold tmp. rewrite !append_assoc. apply append_ne_self. done. }
    rewrite lookup_insert_ne; [done|].
    unfold tmp. apply append_ne_self. done.
  - rewrite lookup_insert_eq. eauto.
Qed.

(** The status returned does not tell a final rename that failed with EEXIST
    from one that succeeded. *)
Lemma create_params_path_EEXIST e (fs : filesystem) param_path key_path :
  (create_params_path (with_rename e (Some EEXIST)) fs param_path key_path).1
  = (create_params_path (with_rename e None) fs param_path key_path).1.
Proof.
  unfold create_params_path, with_rename; simpl.
  destruct (if negb (file_exists fs param_path) then _ else _) as [made g].
  destruct made; simpl; [|done].
  destruct (negb (file_exists g key_path)); [|done].
  destruct (mkdtemp _ g _) as [[tmp_dir|] g1]; [|done].
  unfold symlink, rename. destruct (boot_symlink e); [done|].
  destruct (g1 !! (tmp_dir +:+ ".link")); [done|].
  by rewrite lookup_insert_eq.
Qed.

(** C9: the bootstrap is idempotent.  When the root and root/d exist already
    it succeeds and changes nothing; a final rename that fails with EEXIST is
    taken for a success, the call succeeding exactly when it would have with
    the rename going through; and after a call that succeeded and published
    root/d itself, any further call succeeds and changes nothing. *)
Theorem ensure_params_path_idempotent e e' (fs fs' : filesystem) root :
  (file_exists fs root = true → file_exists fs (root +:+ "/d") = true →
   ensure_params_path e fs root = Some fs)
  ∧ (is_Some (ensure_params_path (with_rename e (Some EEXIST)) fs root)
     ↔ is_Some (ensure_params_path (with_rename e None) fs root))
  ∧ (ensure_params_path e fs root = Some fs' → boot_rename e = None →
     ensure_params_path e' fs' root = Some fs').
Proof.
  unfold ensure_params_path. split; [|split].
  - intros H1 H2. by rewrite create_params_path_exists.
  - pose proof (create_params_path_EEXIST e fs root (root +:+ "/d")) as H.
    destruct (create_params_path (with_rename e (Some EEXIST)) _ _ _) as [b1 g1].
    destruct (create_params_path (with_rename e None) _ _ _) as [b2 g2].
    simpl in H. subst b2. destruct b1; split; intros [? ?]; eauto; done.
  - intros H Hren.
    destruct (create_params_path e fs root _) as [[] g] eqn:Hc; [|done].
    simplify_eq.
    destruct (create_params_path_publishes _ _ _ _ Hc Hren) as [H1 H2].
    by rewrite create_params_path_exists.
Qed.


(** ** The registry under getKeyType *)

(** C3 at the input that breaks it: on the registry as populated at startup,
    whatever the values of the tags, getKeyType of a name that is not
    registered returns 0 and leaves the name registered, so the set of
    registered names has changed. *)
Theorem getKeyType_registers_unknown_name
    (PERSISTENT CLEAR_ON_MANAGER_START CLEAR_ON_PANDA_DISCONNECT
     CLEAR_ON_IGNITION_ON CLEAR_ON_IGNITION_OFF DONT_LOG : Z) :
  let keys0 := keys PERSISTENT CLEAR_ON_MANAGER_START CLEAR_ON_PANDA_DISCONNECT
                    CLEAR_ON_IGNITION_ON CLEAR_ON_IGNITION_OFF DONT_LOG in
  checkKey keys0 "NotAKey" = false
  ∧ (getKeyType keys0 "NotAKey").1 = 0
  ∧ checkKey (getKeyType keys0 "NotAKey").2 "NotAKey" = true
  ∧ (getKeyType keys0 "NotAKey").2 ≠ keys0.
Proof.
  intros keys0.
  assert (Hno : checkKey keys0 "NotAKey" = false) by (vm_compute; reflexivity).
  destruct (getKeyType_unregistered keys0 "NotAKey" Hno) as [Heq Hyes].
  split; [done|]. split; [by rewrite Heq|]. split; [done|].
  intros Hsame. rewrite Hsame in Hyes. congruence.
Qed.

(** ** Worked cases *)

Lemma put_get_roundtrip_witness :
  Params.get sample_root
    (Params.put sample_root put_no_faults sample_fs "DongleId"
       (bytes_of "abc123")).2 "DongleId"
  = bytes_of "abc123".
Proof.
  apply (put_get_roundtrip sample_root put_no_faults sample_fs).
  vm_compute. reflexivity.
Defined.

(** C2 as stated fails here: a put whose rename succeeds and whose directory
    sync fails returns -1, and the new payload is what the key reads. *)
Lemma failed_put_is_visible :
  (Params.put sample_root put_dir_sync_fails sample_fs "DongleId"
     (bytes_of "abc123")).1 = -1
  ∧ Params.get sample_root sample_fs "DongleId" = bytes_of "old"
  ∧ Params.get sample_root
      (Params.put sample_root put_dir_sync_fails sample_fs "DongleId"
         (bytes_of "abc123")).2 "DongleId" = bytes_of "abc123"
  ∧ ¬ failure_leaves_store_unchanged sample_root.
Proof.
  split; [by vm_compute|]. split; [by vm_compute|]. split; [by vm_compute|].
  intros H.
  destruct (H put_dir_sync_fails remove_no_faults sample_fs "DongleId"
              (bytes_of "abc123")) as [Hput _].
  assert (Hfail : (Params.put sample_root put_dir_sync_fails sample_fs
                     "DongleId" (bytes_of "abc123")).1 ≠ 0)
    by (vm_compute; discriminate).
  specialize (Hput Hfail). vm_compute in Hput. discriminate Hput.
Qed.

Lemma failed_put_remove_visibility_witness :
  ((Params.get sample_root
      (Params.put sample_root put_rename_fails sample_fs "DongleId"
         (bytes_of "abc123")).2 "DongleId"
    = Params.get sample_root sample_fs "DongleId"
    ∨ Params.get sample_root
        (Params.put sample_root put_rename_fails sample_fs "DongleId"
           (bytes_of "abc123")).2 "DongleId"
      = bytes_of "abc123")
   ∧ ∀ k, Params.get sample_root
            (Params.put sample_root put_rename_fails sample_fs "DongleId"
               (bytes_of "abc123")).2 k
          = Params.get sample_root sample_fs k)
  ∧ ((Params.get sample_root
        (Params.remove sample_root remove_no_faults sample_fs "CarVin").2
        "CarVin"
      = Params.get sample_root sample_fs "CarVin"
      ∨ Params.get sample_root
          (Params.remove sample_root remove_no_faults sample_fs "CarVin").2
          "CarVin" = [])
     ∧ ∀ k, Params.get sample_root
              (Params.remove sample_root remove_no_faults sample_fs "CarVin").2
              k
            = Params.get sample_root sample_fs k).
Proof.
  destruct (failed_put_remove_visibility sample_root put_rename_fails
              remove_no_faults sample_fs "DongleId" (bytes_of "abc123"))
    as [Hput _].
  destruct (failed_put_remove_visibility sample_root put_rename_fails
              remove_no_faults sample_fs "CarVin" (bytes_of "abc123"))
    as [_ Hremove].
  split.
  - destruct Hput as [Hold Hall]; [vm_compute; discriminate|].
    split; [exact Hold|]. apply Hall. vm_compute. reflexivity.
  - destruct Hremove as [Hold Hall]; [vm_compute; discriminate|].
    split; [exact Hold|]. apply Hall. vm_compute. reflexivity.
Defined.

(** C5 as stated fails here: temp-file creation failure and rename failure
    both return -1. *)
Lemma put_failures_share_status :
  put_failure sample_root put_mkstemp_fails sample_fs (bytes_of "abc123")
    = Some TempFileCreation
  ∧ put_failure sample_root put_rename_fails sample_fs (bytes_of "abc123")
    = Some RenameFailure
  ∧ (Params.put sample_root put_mkstemp_fails sample_fs "DongleId"
       (bytes_of "abc123")).1 = -1
  ∧ (Params.put sample_root put_rename_fails sample_fs "DongleId"
       (bytes_of "abc123")).1 = -1
  ∧ ¬ put_failures_distinguishable sample_root.
Proof.
  split; [by vm_compute|]. split; [by vm_compute|].
  split; [by vm_compute|]. split; [by vm_compute|].
  intros H.
  apply (H put_mkstemp_fails put_rename_fails sample_fs "DongleId"
           (bytes_of "abc123") TempFileCreation RenameFailure);
    [by vm_compute|by vm_compute|discriminate|by vm_compute].
Qed.

Lemma put_failure_status_witness :
  (Params.put sample_root put_short_write sample_fs "DongleId"
     (bytes_of "abc123")).1 < 0
  ∧ (Params.put sample_root put_short_write sample_fs "DongleId"
       (bytes_of "abc123")).1 = -20.
Proof.
  apply (put_failure_status sample_root put_short_write sample_fs "DongleId"
           (bytes_of "abc123") ShortWrite).
  vm_compute. reflexivity.
Defined.

Lemma remove_get_absent_witness :
  Params.get sample_root
    (Params.remove sample_root remove_no_faults sample_fs "DongleId").2
    "DongleId" = []
  ∧ (Params.remove sample_root remove_no_faults sample_fs "CarVin").1 ≠ 0.
Proof.
  split.
  - apply (remove_get_absent sample_root remove_no_faults sample_fs "DongleId").
    vm_compute. reflexivity.
  - apply (remove_get_absent sample_root remove_no_faults sample_fs "CarVin").
    vm_compute. reflexivity.
Defined.

Lemma get_missing_or_empty_witness :
  Params.get sample_root sample_fs "CarVin" = []
  ∧ Params.get sample_root
      (<["/data/params/d/CarVin" := File []]> sample_fs) "CarVin" = []
  ∧ Params.get sample_root sample_fs "CarVin"
    = Params.get sample_root
        (<["/data/params/d/CarVin" := File []]> sample_fs) "CarVin".
Proof.
  apply (get_missing_or_empty sample_root sample_fs
           (<["/data/params/d/CarVin" := File []]> sample_fs) "CarVin");
    vm_compute; reflexivity.
Defined.

(** C4 as stated fails here: CarVin carries CLEAR_ON_IGNITION_ON; with its
    unlink refused, clearAll for that tag leaves the file where it is and
    goes on. *)
Lemma clearAll_unlink_fault_keeps_file :
  sample_keys !! "CarVin" = Some 28
  ∧ Z.land 28 16 ≠ 0
  ∧ Params.get sample_root
      (Params.clearAll sample_root clear_unlink_denied sample_keys
         sample_fs_vin 16) "CarVin" = bytes_of "1HGCM82633A"
  ∧ ¬ clearAll_removes_exactly sample_root.
Proof.
  split; [by vm_compute|]. split; [by vm_compute|]. split; [by vm_compute|].
  intros H.
  destruct (H clear_unlink_denied sample_keys sample_fs_vin 16 "CarVin")
    as [Hgone _].
  specialize (Hgone 28). vm_compute in Hgone.
  specialize (Hgone eq_refl ltac:(discriminate)). discriminate Hgone.
Qed.

(** The selectivity example of the specification: CarVin (ignition on),
    CurrentRoute (ignition on and manager start) and the persistent
    DongleId, under clearAll(CLEAR_ON_IGNITION_ON). *)
Lemma clearAll_selective_witness :
  Params.get sample_root
    (Params.clearAll sample_root clear_no_faults sample_keys sample_fs_vin 16)
    "CarVin" = []
  ∧ Params.get sample_root
      (Params.clearAll sample_root clear_no_faults sample_keys sample_fs_vin 16)
      "DongleId"
    = Params.get sample_root sample_fs_vin "DongleId".
Proof.
  split.
  - apply (proj1 (clearAll_selective sample_root clear_no_faults sample_keys
                    sample_fs_vin 16 "CarVin") 28).
    + vm_compute. reflexivity.
    + vm_compute. discriminate.
    + reflexivity.
  - apply (proj2 (clearAll_selective sample_root clear_no_faults sample_keys
                    sample_fs_vin 16 "DongleId")).
    intros type Htype. vm_compute in Htype.
    injection Htype as <-. reflexivity.
Defined.

Lemma blocking_get_cancellation_witness :
  (∃ p', (∀ fuel, (2 < fuel)%nat →
            Params.get_blocking sample_root fuel sample_ticks sample_process
              "CarVin" = Some ([], p'))
         ∧ handler_SIGINT p' = user_handler 1
         ∧ handler_SIGTERM p' = SIG_DFL)
  ∧ (handler_SIGINT
       {| handler_SIGINT := user_handler 1; handler_SIGTERM := SIG_DFL;
          params_do_exit := 1 |} = user_handler 1
     ∧ handler_SIGTERM
         {| handler_SIGINT := user_handler 1; handler_SIGTERM := SIG_DFL;
            params_do_exit := 1 |} = SIG_DFL).
Proof.
  destruct (blocking_get_cancellation sample_root sample_ticks sample_process
              "CarVin") as [Hcancel Hrestore].
  split.
  - apply (Hcancel 2%nat).
    + intros i. reflexivity.
    + simpl. discriminate.
  - apply (Hrestore 3%nat []). vm_compute. reflexivity.
Defined.

Lemma ensure_params_path_idempotent_witness :
  ensure_params_path boot_no_faults sample_fs sample_root = Some sample_fs
  ∧ (is_Some (ensure_params_path (with_rename boot_no_faults (Some EEXIST))
                ∅ sample_root)
     ↔ is_Some (ensure_params_path (with_rename boot_no_faults None)
                  ∅ sample_root))
  ∧ ensure_params_path boot_no_faults
      {[ "/data/params" := Dir;
         "/data/params/.tmp_Qx7Lp2" := Dir;
         "/data/params/d" := Link "/data/params/.tmp_Qx7Lp2" ]} sample_root
    = Some {[ "/data/params" := Dir;
              "/data/params/.tmp_Qx7Lp2" := Dir;
              "/data/params/d" := Link "/data/params/.tmp_Qx7Lp2" ]}.
Proof.
  split; [|split].
  - apply (ensure_params_path_idempotent boot_no_faults boot_no_faults
             sample_fs sample_fs sample_root); vm_compute; reflexivity.
  - apply (ensure_params_path_idempotent boot_no_faults boot_no_faults
             ∅ ∅ sample_root).
  - apply (proj2 (proj2 (ensure_params_path_idempotent boot_no_faults
             boot_no_faults ∅ _ sample_root))).
    + vm_compute. reflexivity.
    + reflexivity.
Defined.

(** The first bootstrap of an empty file system publishes root/d as a
    symlink to the fresh directory. *)
Example ensure_params_path_first_call :
  ensure_params_path boot_no_faults ∅ sample_root
  = Some {[ "/data/params" := Dir;
            "/data/params/.tmp_Qx7Lp2" := Dir;
            "/data/params/d" := Link "/data/params/.tmp_Qx7Lp2" ]}.
Proof. vm_compute. reflexivity. Qed.

(** With the rename failing on EEXIST the call still succeeds. *)
Example ensure_params_path_lost_race :
  is_Some (ensure_params_path (with_rename boot_no_faults (Some EEXIST))
             ∅ sample_root).
Proof. apply (bool_decide_unpack _). vm_compute. exact I. Qed.

(** Any other failure of the rename is fatal. *)
Example ensure_params_path_rename_denied :
  ensure_params_path (with_rename boot_no_faults (Some EACCES)) ∅ sample_root
  = None.
Proof. vm_compute. reflexivity. Qed.

(** The scenario of the specification: the value put is in the snapshot of
    readAll, and after remove the key reads as absent. *)
Example put_readAll_remove_scenario :
  let fs1 := (Params.put sample_root put_no_faults sample_fs "DongleId"
                (bytes_of "abc123")).2 in
  (Params.readAll sample_root None fs1).1 !! "DongleId"
    = Some (bytes_of "abc123")
  ∧ Params.get sample_root
      (Params.remove sample_root remove_no_faults fs1 "DongleId").2
      "DongleId" = [].
Proof. vm_compute. done. Qed.

(** A short write is reported as -20 and leaves no trace: the temp file is
    removed again. *)
Example put_short_write_leaves_no_trace :
  Params.put sample_root put_short_write sample_fs "DongleId"
    (bytes_of "abc123") = (-20, sample_fs).
Proof. vm_compute. reflexivity. Qed.

(** A successful put replaces the value and leaves, next to it, only the
    lock file. *)
Example put_success_layout :
  Params.put sample_root put_no_faults sample_fs "DongleId" (bytes_of "abc123")
  = (0, <["/data/params/.lock" := File []]>
          (<["/data/params/d/DongleId" := File (bytes_of "abc123")]>
             sample_fs)).
Proof. vm_compute. reflexivity. Qed.

(** Before the signal the blocking read is still polling; a value that shows
    up ends it at once, with the handlers back in place. *)
Example blocking_get_still_waiting :
  Params.get_blocking sample_root 2 sample_ticks sample_process "CarVin"
  = None.
Proof. vm_compute. reflexivity. Qed.

Example blocking_get_value_arrives :
  Params.get_blocking sample_root 2
    (λ i, {| delivered := [];
             seen := if (i =? 0)%nat then sample_fs else sample_fs_vin |})
    sample_process "CarVin"
  = Some (bytes_of "1HGCM82633A", sample_process).
Proof. vm_compute. reflexivity. Qed.

(** * Further properties of the store *)

(** ** The exact effect of put and remove on the file system *)

Lemma tmp_value_path_ne_lock (root suffix : string) :
  (root +:+ "/.tmp_value_") +:+ suffix ≠ root +:+ "/.lock".
Proof.
  rewrite append_assoc. intros H. apply String.app_inj in H. discriminate H.
Qed.

Lemma FileLock_lock_insert fault (fs : filesystem) fn p n :
  p ≠ fn →
  FileLock_lock fault (<[p := n]> fs) fn = <[p := n]> (FileLock_lock fault fs fn).
Proof.
  intros Hne. unfold FileLock_lock. destruct fault; [done|].
  rewrite lookup_insert_ne by done.
  destruct (fs !! fn); [done|]. by apply insert_insert_ne.
Qed.

Lemma FileLock_lock_delete fault (fs : filesystem) fn p :
  p ≠ fn →
  delete p (FileLock_lock fault fs fn) = FileLock_lock fault (delete p fs) fn.
Proof.
  intros Hne. unfold FileLock_lock. destruct fault; [done|].
  rewrite lookup_delete_ne by done.
  destruct (fs !! fn); [done|]. by apply delete_insert_ne.
Qed.

(** Taking the lock a second time changes nothing more. *)
Lemma FileLock_lock_twice f1 f2 (fs : filesystem) fn :
  FileLock_lock f2 (FileLock_lock f1 fs fn) fn
  = match f1 with
    | None => FileLock_lock f1 fs fn
    | Some _ => FileLock_lock f2 fs fn
    end.
Proof.
  unfold FileLock_lock. destruct f1; [done|]. destruct f2; [done|].
  destruct (fs !! fn) eqn:H; [by rewrite H|]. by rewrite lookup_insert_eq.
Qed.

Section Exact.

  Variable params_path : string.

  Local Abbreviation key_path k := (params_path +:+ "/d/" +:+ k).
  Local Abbreviation lock_path := (params_path +:+ "/.lock").
  Local Abbreviation put := (Params.put params_path).
  Local Abbreviation remove := (Params.remove params_path).
  Local Abbreviation get := (Params.get params_path).

(** The file system a put leaves behind, by the first step that fails. *)
Lemma put_state e (fs : filesystem) key (value : list byte) :
  (put e fs key value).2
  = match put_failure params_path e fs value with
    | None =>
        <[key_path key := File value]>
          (FileLock_lock (Params.put_lock e) fs lock_path)
    | Some TempFileCreation => fs
    | Some c =>
        let tmp := (params_path +:+ "/.tmp_value_")
                   +:+ default "" (Params.put_mkstemp e) in
        let written :=
          match Params.put_write e with
          | None => []
          | Some n => take n value
          end in
        let fs1 :=
          match c with
          | RenameFailure => FileLock_lock (Params.put_lock e) fs lock_path
          | _ => fs
          end in
        match Params.put_unlink e with
        | None => fs1
        | Some _ => <[tmp := File written]> fs1
        end
    end.
Proof.
  unfold put_failure, Params.put, mkstemp, file_exists.
  destruct (Params.put_mkstemp e) as [suffix|]; [|done]. simpl.
  set (tmp := (params_path +:+ "/.tmp_value_") +:+ suffix).
  case_bool_decide as Hex.
  { destruct Hex as [n Hn]. by rewrite Hn. }
  apply eq_None_not_Some in Hex. rewrite Hex.
  assert (Hfin : ∀ (r : Z) (g : filesystem),
    (let '(_, fs0) := unlink (Params.put_unlink e) g tmp in (r, fs0)).2
    = (unlink (Params.put_unlink e) g tmp).2).
  { intros r g. by destruct (unlink _ g tmp). }
  assert (Hclean : ∀ (g : filesystem) w,
    g !! tmp = None →
    (unlink (Params.put_unlink e) (<[tmp := File w]> g) tmp).2
    = match Params.put_unlink e with
      | None => g
      | Some _ => <[tmp := File w]> g
      end).
  { intros g w Hg. unfold unlink. destruct (Params.put_unlink e); [done|].
    rewrite lookup_insert_eq. simpl. by apply delete_insert_id. }
  unfold write. destruct (Params.put_write e) as [n|]; simpl.
  2:{ rewrite Hfin. by apply Hclean. }
  rewrite insert_insert_eq.
  destruct (n <? length value)%nat eqn:Hn.
  { apply Nat.ltb_lt in Hn.
    replace (Z.of_nat (n `min` length value) =? Z.of_nat (length value))
      with false by (symmetry; apply Z.eqb_neq; lia).
    rewrite orb_true_r, Hfin.
    replace (n `min` length value)%nat with n by lia. by apply Hclean. }
  apply Nat.ltb_ge in Hn.
  replace (n `min` length value)%nat with (length value) by lia.
  rewrite Z.eqb_refl, firstn_all.
  replace (Z.of_nat (length value) <? 0) with false
    by (symmetry; apply Z.ltb_ge; lia).
  rewrite (take_ge value n) by done.
  simpl.
  destruct (Params.put_fsync e); simpl; [rewrite Hfin; by apply Hclean|].
  unfold rename.
  rewrite FileLock_lock_insert by apply tmp_value_path_ne_lock.
  rewrite lookup_insert_eq.
  assert (Hlocked : FileLock_lock (Params.put_lock e) fs lock_path !! tmp = None).
  { rewrite FileLock_lock_lookup_ne; [done|].
    intros H. symmetry in H. by apply tmp_value_path_ne_lock in H. }
  destruct (Params.put_rename e); simpl; [rewrite Hfin; by apply Hclean|].
  rewrite Hfin. rewrite delete_insert_id by done.
  unfold unlink.
  rewrite lookup_insert_ne
    by (intros H; symmetry in H; by apply tmp_value_path_ne_key in H).
  rewrite Hlocked. by destruct (Params.put_unlink e).
Qed.


(** X1: fsync_dir reports success exactly when the directory could be
    opened, synced and closed: a failure of any of the three steps, the close
    included, makes it return -1. *)
Theorem fsync_dir_zero_iff e path :
  (fsync_dir e path = 0
   ↔ dir_open e = None ∧ dir_fsync e = None ∧ dir_close e = None)
  ∧ (fsync_dir e path = 0 ∨ fsync_dir e path = -1).
Proof.
  unfold fsync_dir.
  destruct (dir_open e), (dir_fsync e), (dir_close e); simpl;
    (split; [split; [intros H; try done | intros (? & ? & ?); done] | auto]).
Qed.

(** A put that returns 0 met no failure at any of its named steps. *)
Lemma put_zero_no_failure e (fs : filesystem) key (value : list byte) :
  (put e fs key value).1 = 0 → put_failure params_path e fs value = None.
Proof.
  pose proof (put_outcome params_path e fs key value) as H.
  destruct (put_failure params_path e fs value) as [c|]; [|done].
  destruct H as [-> _]. by destruct c.
Qed.

(** X2: put returns 0 exactly when the temp file is created, the whole
    payload is written, the fsync, the rename and the directory sync all
    succeed; whether the lock could be taken, and whether the close and the
    final unlink succeed, has no bearing on the status. *)
Theorem put_status_zero_iff e (fs : filesystem) key (value : list byte) :
  (put e fs key value).1 = 0
  ↔ put_failure params_path e fs value = None
    ∧ fsync_dir (Params.put_fsync_dir e) (params_path +:+ "/d") = 0.
Proof.
  pose proof (put_outcome params_path e fs key value) as H.
  destruct (put_failure params_path e fs value) as [c|].
  - destruct H as [-> _]. split; [by destruct c|]. by intros [? _].
  - destruct H as [-> _]. split; [done|]. by intros [_ ?].
Qed.

(** X3: a put that returns 0 changes exactly one thing that matters: the
    file of the key now holds the payload.  Beside it only the lock file may
    have been created; the temp file is gone and every other path is as it
    was. *)
Theorem put_success_state e (fs : filesystem) key (value : list byte) :
  (put e fs key value).1 = 0 →
  (put e fs key value).2
  = <[key_path key := File value]>
      (FileLock_lock (Params.put_lock e) fs lock_path).
Proof.
  intros H. apply put_zero_no_failure in H.
  by rewrite put_state, H.
Qed.

(** X4: a put that fails at one of its four named steps, with its final
    unlink working, leaves no trace: the file system is the one it found, but
    for the lock file when it got as far as the rename. *)
Theorem put_failure_leaves_no_trace e (fs : filesystem) key
    (value : list byte) c :
  put_failure params_path e fs value = Some c →
  Params.put_unlink e = None →
  (put e fs key value).2
  = match c with
    | RenameFailure => FileLock_lock (Params.put_lock e) fs lock_path
    | _ => fs
    end.
Proof.
  intros Hc Hu. rewrite put_state, Hc, Hu. by destruct c.
Qed.

(** X5: the status of the final unlink is ignored, so when it fails after a
    write, fsync or rename failure the temp file stays in the storage root,
    holding whatever was written. *)
Theorem put_leaks_temp_file e (fs : filesystem) key (value : list byte) c
    suffix errno :
  put_failure params_path e fs value = Some c →
  c ≠ TempFileCreation →
  Params.put_mkstemp e = Some suffix →
  Params.put_unlink e = Some errno →
  ∃ written,
    (put e fs key value).2 !! ((params_path +:+ "/.tmp_value_") +:+ suffix)
    = Some (File written)
    ∧ written `prefix_of` value.
Proof.
  intros Hc Hne Hs Hu. rewrite put_state, Hc, Hs, Hu. simpl.
  eexists. split.
  - destruct c; try done; apply lookup_insert_eq.
  - destruct (Params.put_write e); [apply prefix_take|apply prefix_nil].
Qed.

End Exact.

(** ** remove, and put and remove together *)

Section Compose.

  Variable params_path : string.

  Local Abbreviation key_path k := (params_path +:+ "/d/" +:+ k).
  Local Abbreviation lock_path := (params_path +:+ "/.lock").
  Local Abbreviation put := (Params.put params_path).
  Local Abbreviation remove := (Params.remove params_path).
  Local Abbreviation get := (Params.get params_path).

(** The file system and the status a remove leaves behind, by the outcome of
    its unlink. *)
Lemma remove_state e (fs : filesystem) key :
  let locked := FileLock_lock (Params.remove_lock e) fs lock_path in
  remove e fs key
  = match (unlink (Params.remove_unlink e) locked (key_path key)).1 with
    | Ok => (fsync_dir (Params.remove_fsync_dir e) (params_path +:+ "/d"),
             delete (key_path key) locked)
    | Err _ => (-1, locked)
    end.
Proof.
  unfold Params.remove, unlink. simpl.
  destruct (Params.remove_unlink e); [done|].
  by destruct (FileLock_lock _ fs _ !! key_path key) as [[]|].
Qed.

(** X6: remove returns 0 exactly when the key has a file, the unlink and the
    directory sync succeed; it then has deleted that one file and, beside
    the lock file it may have created, changed nothing else. *)
Theorem remove_success_state e (fs : filesystem) key :
  (remove e fs key).1 = 0 →
  (∃ n, fs !! key_path key = Some n ∧ n ≠ Dir)
  ∧ Params.remove_unlink e = None
  ∧ fsync_dir (Params.remove_fsync_dir e) (params_path +:+ "/d") = 0
  ∧ (remove e fs key).2
    = delete (key_path key)
        (FileLock_lock (Params.remove_lock e) fs lock_path).
Proof.
  rewrite remove_state. simpl. unfold unlink.
  rewrite FileLock_lock_lookup_ne by apply lock_path_ne_key.
  destruct (Params.remove_unlink e); [done|].
  destruct (fs !! key_path key) as [[]|]; simpl; try done;
    intros H; (split; [eexists; split; [done|done]|done]).
Qed.

(** X7: remove is not idempotent.  After a remove whose unlink went through,
    a second remove of the same key fails with -1, whatever its
    environment, and deletes nothing. *)
Theorem remove_twice_fails e e' (fs : filesystem) key :
  (remove e fs key).1 = 0 →
  (remove e' (remove e fs key).2 key).1 = -1
  ∧ (remove e' (remove e fs key).2 key).2
    = FileLock_lock (Params.remove_lock e') (remove e fs key).2 lock_path.
Proof.
  intros H.
  assert (Hst : (remove e fs key).2
                = delete (key_path key)
                    (FileLock_lock (Params.remove_lock e) fs lock_path)).
  { rewrite remove_state in H |- *. simpl in *.
    by destruct (unlink _ _ _).1. }
  rewrite Hst, (remove_state e'). simpl.
  assert (Hgone : FileLock_lock (Params.remove_lock e')
            (delete (key_path key)
               (FileLock_lock (Params.remove_lock e) fs lock_path))
            lock_path !! key_path key = None).
  { rewrite FileLock_lock_lookup_ne by apply lock_path_ne_key.
    apply lookup_delete_eq. }
  unfold unlink. rewrite Hgone. by destruct (Params.remove_unlink e').
Qed.

(** X8: remove undoes put.  On a key that had no file, a put that returned
    0 followed by a remove whose unlink meets no fault brings the file system
    back to what it was, the lock file apart, and the remove reports the
    status of its directory sync. *)
Theorem put_then_remove_restores pe re (fs : filesystem) key
    (value : list byte) :
  fs !! key_path key = None →
  (put pe fs key value).1 = 0 →
  Params.remove_unlink re = None →
  remove re (put pe fs key value).2 key
  = (fsync_dir (Params.remove_fsync_dir re) (params_path +:+ "/d"),
     FileLock_lock (Params.remove_lock re)
       (FileLock_lock (Params.put_lock pe) fs lock_path) lock_path).
Proof.
  intros Hnew Hput Hre.
  apply put_zero_no_failure in Hput. rewrite put_state, Hput.
  rewrite remove_state. simpl.
  rewrite FileLock_lock_insert
    by (intros H; symmetry in H; by apply lock_path_ne_key in H).
  unfold unlink. rewrite Hre, lookup_insert_eq. simpl.
  rewrite delete_insert_id; [done|].
  by rewrite !FileLock_lock_lookup_ne by apply lock_path_ne_key.
Qed.

End Compose.

(** ** clearAll, completely *)

Section ClearAllMore.

  Variable params_path : string.

  Local Abbreviation key_path k := (params_path +:+ "/d/" +:+ k).
  Local Abbreviation get := (Params.get params_path).
  Local Abbreviation clearAll := (Params.clearAll params_path).
  Local Abbreviation clear_entry := (Params.clear_entry params_path).

(** The loop leaves a path alone when every listed key that has it as its
    file is either not selected by the mask or has its unlink refused. *)
Lemma clear_entries_skip e m l (fs : filesystem) q :
  (∀ k t, (k, t) ∈ l → Z.land t m ≠ 0 → key_path k = q →
          Params.clear_unlink e k ≠ None) →
  foldl (clear_entry e m) fs l !! q = fs !! q.
Proof.
  revert fs. induction l as [|[k t] l IH]; intros fs Hskip; simpl; [done|].
  rewrite IH by (intros k' t' Hin; apply Hskip; by right).
  unfold Params.clear_entry. destruct (Z.land t m =? 0) eqn:Hz; simpl; [done|].
  apply Z.eqb_neq in Hz.
  destruct (decide (key_path k = q)) as [Heq|Hne].
  - pose proof (Hskip k t ltac:(left) Hz Heq) as Hfault.
    unfold unlink. by destruct (Params.clear_unlink e k).
  - by apply unlink_lookup_ne.
Qed.

(** What a read returns after clearAll, for every key and every outcome of
    the unlinks. *)
Lemma clearAll_get e (keys : gmap string Z) (fs : filesystem) (m : Z) k :
  get (clearAll e keys fs m) k
  = match keys !! k with
    | Some t =>
        if negb (Z.land t m =? 0)
           && bool_decide (Params.clear_unlink e k = None)
        then [] else get fs k
    | None => get fs k
    end.
Proof.
  unfold Params.clearAll, Params.get.
  assert (Hlock : ∀ k', read_file (FileLock_lock (Params.clear_lock e) fs
                                     (params_path +:+ "/.lock")) (key_path k')
                        = read_file fs (key_path k')).
  { intros k'. apply read_file_ext, FileLock_lock_lookup_ne, lock_path_ne_key. }
  destruct (keys !! k) as [t|] eqn:Hk.
  - destruct (Z.land t m =? 0) eqn:Hz; simpl.
    + rewrite <- Hlock. apply read_file_ext, clear_entries_skip.
      intros k' t' Hin Hhit Heq. apply key_path_inj in Heq as ->.
      apply elem_of_map_to_list in Hin. apply Z.eqb_eq in Hz. congruence.
    + apply Z.eqb_neq in Hz. case_bool_decide as Hf.
      * apply (clear_entries_hit _ _ _ _ _ _ t); [|done..].
        by apply elem_of_map_to_list.
      * rewrite <- Hlock. apply read_file_ext, clear_entries_skip.
        intros k' t' Hin Hhit Heq. by apply key_path_inj in Heq as ->.
  - rewrite <- Hlock. apply read_file_ext, clear_entries_skip.
    intros k' t' Hin Hhit Heq. apply key_path_inj in Heq as ->.
    apply elem_of_map_to_list in Hin. congruence.
Qed.

(** X9: clearAll is best effort key by key.  A registered key that the mask
    selects and whose unlink is refused keeps the value it had, and the
    others are still dealt with: every selected key whose unlink is not
    refused reads as absent afterwards. *)
Theorem clearAll_refused_unlink_keeps_value e (keys : gmap string Z)
    (fs : filesystem) (m : Z) k t errno :
  keys !! k = Some t →
  Params.clear_unlink e k = Some errno →
  get (clearAll e keys fs m) k = get fs k
  ∧ ∀ k' t', keys !! k' = Some t' → Z.land t' m ≠ 0 →
             Params.clear_unlink e k' = None →
             get (clearAll e keys fs m) k' = [].
Proof.
  intros Hk Hf. split.
  - rewrite clearAll_get, Hk.
    rewrite (bool_decide_eq_false_2 _) by congruence.
    by rewrite andb_false_r.
  - intros k' t' Hk' Hhit Hok. rewrite clearAll_get, Hk'.
    apply Z.eqb_neq in Hhit. rewrite Hhit. simpl.
    by rewrite bool_decide_eq_true_2.
Qed.

(** X10: bulk clears add up.  Under one environment, clearing for a mask and
    then for another leaves every key reading as one clear for the union of
    the two masks does; in particular clearing twice for the same mask is
    clearing once, and the order of two clears does not matter. *)
Theorem clearAll_union e (keys : gmap string Z) (fs : filesystem)
    (m1 m2 : Z) k :
  get (clearAll e keys (clearAll e keys fs m1) m2) k
  = get (clearAll e keys fs (Z.lor m1 m2)) k
  ∧ get (clearAll e keys (clearAll e keys fs m1) m1) k
    = get (clearAll e keys fs m1) k
  ∧ get (clearAll e keys (clearAll e keys fs m1) m2) k
    = get (clearAll e keys (clearAll e keys fs m2) m1) k.
Proof.
  rewrite !clearAll_get. destruct (keys !! k) as [t|]; [|done].
  rewrite Z.land_lor_distr_r.
  assert (Hor : (Z.lor (Z.land t m1) (Z.land t m2) =? 0)
                = (Z.land t m1 =? 0) && (Z.land t m2 =? 0)).
  { destruct (Z.land t m1 =? 0) eqn:H1, (Z.land t m2 =? 0) eqn:H2;
      rewrite ?Z.eqb_eq, ?Z.eqb_neq in *; simpl;
      rewrite ?Z.eqb_eq, ?Z.eqb_neq, Z.lor_eq_0_iff; tauto. }
  rewrite Hor.
  destruct (Z.land t m1 =? 0), (Z.land t m2 =? 0),
    (bool_decide (Params.clear_unlink e k = None)); done.
Qed.

(** X11: the entry that getKeyType inserts for an unknown name has no effect
    on bulk clears: its mask is 0, so no clearAll ever selects it, and with
    the registry so extended clearAll leaves every key reading as it does
    with the registry as it was. *)
Theorem clearAll_after_getKeyType e (keys : gmap string Z) (fs : filesystem)
    (m : Z) name k :
  get (clearAll e (getKeyType keys name).2 fs m) k
  = get (clearAll e keys fs m) k.
Proof.
  rewrite !clearAll_get. unfold getKeyType.
  destruct (keys !! name) as [t|] eqn:Hname; simpl; [done|].
  destruct (decide (name = k)) as [->|Hne].
  - rewrite lookup_insert_eq, Hname. by rewrite Z.land_0_l.
  - by rewrite lookup_insert_ne.
Qed.

End ClearAllMore.

(** ** The registry, again *)

(** X12: no call ever removes a registered name or changes its mask: the
    only change a call can make to the registry is the entry with mask 0
    that getKeyType adds for a name it does not know, and getKeyType answers
    a registered name with its mask and any other with 0. *)
Theorem registry_entries_kept params_path c (w w' : World) :
  run params_path c w = Some w' →
  (∀ k t, w_keys w !! k = Some t → w_keys w' !! k = Some t)
  ∧ (∀ k t, w_keys w' !! k = Some t →
            w_keys w !! k = Some t ∨ (c = GetKeyType k ∧ t = 0))
  ∧ (∀ name, (getKeyType (w_keys w) name).1
             = default 0 (w_keys w !! name)).
Proof.
  intros Hrun. split; [|split].
  - intros k t Hk. destruct c; simpl in Hrun; simplify_eq; simpl; try done.
    + destruct (Params.get_blocking _ _ _ _ _) as [[? ?]|]; by simplify_eq.
    + unfold getKeyType. destruct (w_keys w !! key) eqn:Hkey; simpl; [done|].
      rewrite lookup_insert_ne; [done|]. congruence.
  - intros k t Hk. destruct c; simpl in Hrun; simplify_eq; simpl in *; auto.
    + destruct (Params.get_blocking _ _ _ _ _) as [[? ?]|]; simplify_eq; auto.
    + unfold getKeyType in Hk.
      destruct (w_keys w !! key) eqn:Hkey; simpl in Hk; [auto|].
      destruct (decide (key = k)) as [->|Hne].
      * rewrite lookup_insert_eq in Hk. simplify_eq. auto.
      * rewrite lookup_insert_ne in Hk by done. auto.
  - intros name. unfold getKeyType. by destruct (w_keys w !! name).
Qed.

Section Table.

  Variables PERSISTENT CLEAR_ON_MANAGER_START CLEAR_ON_PANDA_DISCONNECT
            CLEAR_ON_IGNITION_ON CLEAR_ON_IGNITION_OFF DONT_LOG : Z.

  Local Abbreviation table :=
    (keys_table PERSISTENT CLEAR_ON_MANAGER_START CLEAR_ON_PANDA_DISCONNECT
                CLEAR_ON_IGNITION_ON CLEAR_ON_IGNITION_OFF DONT_LOG).
  Local Abbreviation keys0 :=
    (keys PERSISTENT CLEAR_ON_MANAGER_START CLEAR_ON_PANDA_DISCONNECT
          CLEAR_ON_IGNITION_ON CLEAR_ON_IGNITION_OFF DONT_LOG).

Lemma keys_table_NoDup : NoDup (table.*1).
Proof. apply (bool_decide_unpack _). vm_compute. exact I. Qed.

(** X13: the table of keys names no key twice, so each of its 211 entries
    takes effect: the registry at startup holds exactly the listed names,
    each with the mask listed for it. *)
Theorem keys_table_effective k t :
  (keys PERSISTENT CLEAR_ON_MANAGER_START CLEAR_ON_PANDA_DISCONNECT
        CLEAR_ON_IGNITION_ON CLEAR_ON_IGNITION_OFF DONT_LOG !! k = Some t
   ↔ (k, t) ∈ keys_table PERSISTENT CLEAR_ON_MANAGER_START
                CLEAR_ON_PANDA_DISCONNECT CLEAR_ON_IGNITION_ON
                CLEAR_ON_IGNITION_OFF DONT_LOG)
  ∧ size (keys PERSISTENT CLEAR_ON_MANAGER_START CLEAR_ON_PANDA_DISCONNECT
               CLEAR_ON_IGNITION_ON CLEAR_ON_IGNITION_OFF DONT_LOG)
    = 211%nat.
Proof.
  split.
  - symmetry. apply elem_of_list_to_map. apply keys_table_NoDup.
  - unfold keys. etrans; [apply map_size_list_to_map, keys_table_NoDup|].
    vm_compute. reflexivity.
Qed.

Lemma lor_absorbs_land (c t : Z) : Z.lor c t = t → Z.land t c = c.
Proof.
  intros H. rewrite <- H. apply Z.bits_inj'. intros n Hn.
  rewrite Z.land_spec, Z.lor_spec.
  by destruct (Z.testbit c n), (Z.testbit t n).
Qed.

(** Every key is PERSISTENT and nothing else, or carries
    CLEAR_ON_MANAGER_START. *)
Lemma keys_table_masks :
  Forall (λ entry : string * Z,
            entry.2 = PERSISTENT
            ∨ Z.lor CLEAR_ON_MANAGER_START entry.2 = entry.2) table.
Proof.
  unfold keys_table.
  repeat (apply Forall_cons; split;
    [simpl; first [left; reflexivity
                  |right; rewrite ?Z.lor_assoc, Z.lor_diag; reflexivity]|]).
  apply Forall_nil_2.
Qed.

(** X14: in the table every key is either PERSISTENT and nothing else or
    carries CLEAR_ON_MANAGER_START.  So, the two tags sharing no bit,
    clearAll(CLEAR_ON_MANAGER_START) on the registry as populated at startup
    wipes every registered key that is not persistent (its unlink not being
    refused) and leaves every persistent one as it is. *)
Theorem manager_start_clears_all_but_persistent params_path e
    (fs : filesystem) k t :
  Z.land PERSISTENT CLEAR_ON_MANAGER_START = 0 →
  CLEAR_ON_MANAGER_START ≠ 0 →
  keys0 !! k = Some t →
  Params.clear_unlink e k = None →
  (t = PERSISTENT
   ∧ Params.get params_path
       (Params.clearAll params_path e keys0 fs CLEAR_ON_MANAGER_START) k
     = Params.get params_path fs k)
  ∨ (Z.land t CLEAR_ON_MANAGER_START = CLEAR_ON_MANAGER_START
     ∧ Params.get params_path
         (Params.clearAll params_path e keys0 fs CLEAR_ON_MANAGER_START) k
       = []).
Proof.
  intros Hdisj Hnz Hk Hok. rewrite clearAll_get, Hk.
  pose proof keys_table_masks as Hall. rewrite Forall_forall in Hall.
  assert (Hin : (k, t) ∈ table)
    by (by apply (elem_of_list_to_map _ _ _ keys_table_NoDup)).
  destruct (Hall _ Hin) as [Hp|Hc]; simpl in *.
  - left. split; [done|]. subst t. by rewrite Hdisj.
  - right. apply lor_absorbs_land in Hc. split; [done|]. rewrite Hc.
    apply Z.eqb_neq in Hnz. rewrite Hnz. simpl.
    by rewrite bool_decide_eq_true_2.
Qed.

End Table.

(** ** The bootstrap, again *)

Lemma tmp_dir_ne_root (root suffix : string) :
  (root +:+ "/.tmp_") +:+ suffix ≠ root.
Proof. rewrite append_assoc. by apply append_ne_self. Qed.

Lemma tmp_link_ne_root (root suffix : string) :
  ((root +:+ "/.tmp_") +:+ suffix) +:+ ".link" ≠ root.
Proof. rewrite !append_assoc. by apply append_ne_self. Qed.

Lemma key_dir_ne_root (root : string) : root +:+ "/d" ≠ root.
Proof. by apply append_ne_self. Qed.

(** Adding a directory or a symlink where there was nothing keeps every
    node there was and what every path reads. *)
Lemma insert_keeps_files (fs g : filesystem) q n :
  keeps_files fs g → fs !! q = None → (∀ c, n ≠ File c) →
  keeps_files fs (<[q := n]> g).
Proof.
  intros [Hnodes Hread] Hq Hn. split.
  - intros p x Hp. rewrite lookup_insert_ne by congruence. by apply Hnodes.
  - intros p. destruct (decide (q = p)) as [->|Hne].
    + unfold read_file. rewrite lookup_insert_eq, Hq.
      destruct n as [c| |]; [by destruct (Hn c)|done..].
    + rewrite <- Hread. apply read_file_ext. by rewrite lookup_insert_ne.
Qed.

Lemma keeps_files_absent (fs g : filesystem) q :
  keeps_files fs g → g !! q = None → fs !! q = None.
Proof.
  intros [Hnodes _] Hq. destruct (fs !! q) as [x|] eqn:H; [|done].
  apply Hnodes in H. congruence.
Qed.

(** X15: the bootstrap never touches what is stored.  Whatever its outcome,
    every node the file system had is still there unchanged, and every path
    reads as it did: the call only ever adds directories and symlinks. *)
Theorem create_params_path_keeps_files e (fs : filesystem)
    param_path key_path :
  (∀ p n, fs !! p = Some n →
          (create_params_path e fs param_path key_path).2 !! p = Some n)
  ∧ (∀ p, read_file (create_params_path e fs param_path key_path).2 p
          = read_file fs p).
Proof.
  change (keeps_files fs (create_params_path e fs param_path key_path).2).
  unfold create_params_path, create_directories, mkdtemp, symlink, rename.
  assert (H0 : keeps_files fs fs) by done.
  destruct (if negb (file_exists fs param_path) then _ else _)
    as [made g] eqn:Hst.
  assert (Hg : keeps_files fs g).
  { destruct (file_exists fs param_path) eqn:Hroot; simpl in Hst;
      [by simplify_eq|].
    destruct (boot_create_directories e); simplify_eq; [|done].
    apply insert_keeps_files; [done| |done].
    unfold file_exists in Hroot. apply bool_decide_eq_false in Hroot.
    by apply eq_None_not_Some. }
  destruct made; simpl; [|done].
  destruct (file_exists g key_path) eqn:Hkey; simpl; [done|].
  unfold file_exists in Hkey. apply bool_decide_eq_false in Hkey.
  apply eq_None_not_Some in Hkey.
  destruct (boot_mkdtemp e) as [suffix|]; [|done].
  set (tmp := (param_path +:+ "/.tmp_") +:+ suffix).
  destruct (g !! tmp) eqn:Htmp; [done|].
  assert (Hg2 : keeps_files fs (<[tmp := Dir]> g)).
  { apply insert_keeps_files; [done| |done]. by apply (keeps_files_absent _ g). }
  destruct (boot_symlink e); [done|].
  destruct (<[tmp := Dir]> g !! (tmp +:+ ".link")) eqn:Hlink; [done|].
  assert (Hg3 : keeps_files fs (<[tmp +:+ ".link" := Link tmp]> (<[tmp := Dir]> g))).
  { apply insert_keeps_files; [done| |done].
    by apply (keeps_files_absent _ (<[tmp := Dir]> g)). }
  destruct (boot_rename e) as [errno|];
    [simpl; destruct (negb (errno =? EEXIST)); exact Hg3|].
  rewrite lookup_insert_eq. simpl.
  rewrite delete_insert_id by done.
  apply insert_keeps_files; [done| |done]. by apply (keeps_files_absent _ g).
Qed.

(** The failure cases of the bootstrap once the root exists. *)
Lemma ensure_params_path_fails_with_root e (g : filesystem) root :
  file_exists g root = true →
  ensure_params_path e g root = None
  ↔ file_exists g (root +:+ "/d") = false
    ∧ match boot_mkdtemp e with
      | None => True
      | Some suffix =>
          let tmp_dir := (root +:+ "/.tmp_") +:+ suffix in
          file_exists g tmp_dir = true
          ∨ boot_symlink e ≠ None
          ∨ file_exists g (tmp_dir +:+ ".link") = true
          ∨ ∃ errno, boot_rename e = Some errno ∧ errno ≠ EEXIST
      end.
Proof.
  intros Hroot.
  unfold ensure_params_path, create_params_path. rewrite Hroot. simpl.
  destruct (file_exists g (root +:+ "/d")) eqn:Hkey; simpl.
  { split; [done|]. by intros [? _]. }
  unfold mkdtemp. destruct (boot_mkdtemp e) as [suffix|]; [|done].
  set (tmp := (root +:+ "/.tmp_") +:+ suffix). simpl.
  unfold file_exists.
  destruct (g !! tmp) as [n|] eqn:Htmp.
  { split; [|done]. intros _. split; [done|]. left.
    apply bool_decide_eq_true. eauto. }
  unfold symlink. destruct (boot_symlink e) as [errno|].
  { split; [|done]. intros _. split; [done|]. right. by left. }
  rewrite lookup_insert_ne by (intros H; by apply (append_ne_self tmp ".link")).
  destruct (g !! (tmp +:+ ".link")) as [n|] eqn:Hlink.
  { split; [|done]. intros _. split; [done|]. do 2 right. left.
    apply bool_decide_eq_true. eauto. }
  assert (Hno : ∀ (P : Prop),
    bool_decide (is_Some (@None node)) = true ∨ @None Z ≠ None
    ∨ bool_decide (is_Some (@None node)) = true ∨ P → P).
  { by intros P [H|[H|[H|H]]]. }
  unfold rename. destruct (boot_rename e) as [errno|]; simpl.
  - destruct (errno =? EEXIST) eqn:He; simpl.
    + apply Z.eqb_eq in He. split; [done|]. intros [_ H].
      apply Hno in H as (errno' & Heq & Hne). congruence.
    + apply Z.eqb_neq in He. split; [|done]. intros _. split; [done|].
      do 3 right. eauto.
  - rewrite lookup_insert_eq. split; [done|]. intros [_ H].
    by apply Hno in H as (errno' & Heq & Hne).
Qed.

(** X16: when the constructor throws.  ensure_params_path fails exactly
    when the root is missing and cannot be created, or root/d is missing and
    one of the publishing steps fails: mkdtemp fails or gives a name in use,
    the symlink fails or its name is in use, or the rename fails with an
    errno other than EEXIST. *)
Theorem ensure_params_path_fails_iff e (fs : filesystem) root :
  ensure_params_path e fs root = None
  ↔ (file_exists fs root = false ∧ boot_create_directories e = false)
    ∨ (file_exists fs (root +:+ "/d") = false
       ∧ match boot_mkdtemp e with
         | None => True
         | Some suffix =>
             let tmp_dir := (root +:+ "/.tmp_") +:+ suffix in
             file_exists fs tmp_dir = true
             ∨ boot_symlink e ≠ None
             ∨ file_exists fs (tmp_dir +:+ ".link") = true
             ∨ ∃ errno, boot_rename e = Some errno ∧ errno ≠ EEXIST
         end).
Proof.
  destruct (file_exists fs root) eqn:Hroot.
  - rewrite ensure_params_path_fails_with_root by done.
    split; [by right|]. by intros [[? _]|?].
  - destruct (boot_create_directories e) eqn:Hmk.
    + assert (Hnow : file_exists (<[root := Dir]> fs) root = true).
      { unfold file_exists. by rewrite lookup_insert_eq. }
      assert (Hsame : ensure_params_path e fs root
                      = ensure_params_path e (<[root := Dir]> fs) root).
      { unfold ensure_params_path, create_params_path, create_directories.
        by rewrite Hroot, Hmk, Hnow. }
      assert (Hex : ∀ p, p ≠ root →
                file_exists (<[root := Dir]> fs) p = file_exists fs p).
      { intros p Hp. unfold file_exists. by rewrite lookup_insert_ne. }
      rewrite Hsame, ensure_params_path_fails_with_root by done.
      rewrite Hex by apply key_dir_ne_root.
      destruct (boot_mkdtemp e) as [suffix|].
      * simpl. rewrite !Hex by (apply tmp_dir_ne_root || apply tmp_link_ne_root).
        split; [by right|]. by intros [[_ ?]|?].
      * split; [by right|]. by intros [[_ ?]|?].
    + split; [by left|]. intros _.
      unfold ensure_params_path, create_params_path, create_directories.
      by rewrite Hroot, Hmk.
Qed.

(** X20: what the bootstrap leaves behind when it has to publish root/d.
    With the root in place, root/d missing and the temp names free, a rename
    that goes through leaves root/d as a symlink to the new directory and
    nothing under the temp link name; a rename that fails with EEXIST still
    makes the call succeed, but its directory and its temp link are left in
    the storage root, nothing being cleaned up. *)
Theorem ensure_params_path_publish_state e (fs : filesystem) root suffix :
  let tmp_dir := (root +:+ "/.tmp_") +:+ suffix in
  file_exists fs root = true →
  file_exists fs (root +:+ "/d") = false →
  boot_mkdtemp e = Some suffix →
  fs !! tmp_dir = None →
  boot_symlink e = None →
  fs !! (tmp_dir +:+ ".link") = None →
  (boot_rename e = None →
   ensure_params_path e fs root
   = Some (<[root +:+ "/d" := Link tmp_dir]> (<[tmp_dir := Dir]> fs)))
  ∧ (boot_rename e = Some EEXIST →
     ensure_params_path e fs root
     = Some (<[tmp_dir +:+ ".link" := Link tmp_dir]> (<[tmp_dir := Dir]> fs))).
Proof.
  intros tmp_dir Hroot Hkey Hmk Htmp Hsym Hlink.
  unfold ensure_params_path, create_params_path, mkdtemp, symlink, rename.
  rewrite Hroot. simpl. rewrite Hkey, Hmk. simpl. fold tmp_dir.
  rewrite Htmp, Hsym.
  rewrite lookup_insert_ne
    by (intros H; by apply (append_ne_self tmp_dir ".link")).
  rewrite Hlink. split; intros ->; simpl.
  - rewrite lookup_insert_eq. rewrite delete_insert_id; [done|].
    rewrite lookup_insert_ne; [done|].
    intros H; by apply (append_ne_self tmp_dir ".link").
  - done.
Qed.

(** ** The blocking read, again *)

Section BlockingMore.

  Variable params_path : string.

  Local Abbreviation get := (Params.get params_path).
  Local Abbreviation get_poll := (Params.get_poll).
  Local Abbreviation get_blocking := (Params.get_blocking params_path).

Lemma is_empty_true (value : list byte) : is_empty value = true ↔ value = [].
Proof. by destruct value. Qed.

(** With no signal delivered, the loop returns the first value that is not
    empty. *)
Lemma get_poll_first_value env path d i p value0 v :
  params_do_exit p = 0 →
  (∀ j, (i ≤ j ≤ i + d)%nat → delivered (env j) = []) →
  (∀ j, (i ≤ j < i + d)%nat → read_file (seen (env j)) path = []) →
  read_file (seen (env (i + d)%nat)) path = v → v ≠ [] →
  get_poll (S d) env i p path value0 = Some (v, p).
Proof.
  intros Hflag. revert i value0.
  induction d as [|d IH]; intros i value0 Hquiet Hempty Hv Hne.
  - rewrite Nat.add_0_r in Hv. simpl.
    rewrite Hquiet by lia. simpl. rewrite Hflag. simpl. rewrite Hv.
    by destruct v.
  - cbn [Params.get_poll]. rewrite Hquiet by lia. simpl. rewrite Hflag. simpl.
    rewrite Hempty by lia. simpl. apply IH.
    + intros j Hj. apply Hquiet. lia.
    + intros j Hj. apply Hempty. lia.
    + by replace (S i + d)%nat with (i + S d)%nat by lia.
    + done.
Qed.

(** With no signal delivered and nothing but empty reads, the loop never
    ends. *)
Lemma get_poll_waits env path fuel i p value0 :
  params_do_exit p = 0 →
  (∀ j, delivered (env j) = []) →
  (∀ j, read_file (seen (env j)) path = []) →
  get_poll fuel env i p path value0 = None.
Proof.
  intros Hflag Hquiet Hempty. revert i value0.
  induction fuel as [|fuel IH]; intros i value0; simpl; [done|].
  rewrite Hquiet. simpl. rewrite Hflag. simpl. rewrite Hempty. simpl.
  apply IH.
Qed.

(** How the loop can end: on the flag, handing back the empty string, or on
    a value that is not empty, read at one of its polls; the flag is then
    still down when the loop is left, no delivery being modelled after its
    last test. *)
Lemma get_poll_exit env path fuel i p v p' :
  handler_SIGINT p = params_sig_handler →
  handler_SIGTERM p = params_sig_handler →
  params_do_exit p = 0 ∨ params_do_exit p = 1 →
  get_poll fuel env i p path [] = Some (v, p') →
  (v = [] ∧ params_do_exit p' = 1)
  ∨ (v ≠ [] ∧ params_do_exit p' = 0
     ∧ ∃ j, (i ≤ j < i + fuel)%nat ∧ v = read_file (seen (env j)) path).
Proof.
  revert i p. induction fuel as [|fuel IH]; intros i p Hint Hterm Hflag;
    simpl; [done|].
  destruct (deliveries_handlers (delivered (env i)) p) as [Hi Ht].
  assert (Hflag' : params_do_exit (foldl deliver p (delivered (env i))) = 0
                   ∨ params_do_exit (foldl deliver p (delivered (env i))) = 1).
  { destruct (delivered (env i)) as [|sig sigs] eqn:Hsigs; [done|].
    right. apply deliveries_raise_flag; auto. }
  destruct (params_do_exit _ =? 0) eqn:Hz.
  - apply Z.eqb_eq in Hz.
    destruct (is_empty (read_file (seen (env i)) path)) eqn:He; simpl.
    + apply is_empty_true in He. rewrite He. intros H.
      apply IH in H as [H|(Hv & Hp & j & Hj & Hvj)];
        [by left|right|congruence|congruence|auto].
      split; [done|]. split; [done|]. exists j. split; [lia|done].
    + intros H. simplify_eq. right. split; [|split; [done|]].
      * intros Hnil. by rewrite Hnil in He.
      * exists i. split; [lia|done].
  - apply Z.eqb_neq in Hz. intros H. simplify_eq. left. split; [done|].
    by destruct Hflag'.
Qed.

(** X17: a blocking get returns the first value that appears.  When no
    signal is delivered before then and the read at poll [n] is the first
    one that is not empty, the call returns exactly that value for every
    fuel above [n], with the handlers restored and the flag down; this
    whatever [params_do_exit] was before the call, which lowers it on
    entry. *)
Theorem blocking_get_first_value env p key n v :
  (∀ i, (i ≤ n)%nat → delivered (env i) = []) →
  (∀ i, (i < n)%nat → get (seen (env i)) key = []) →
  get (seen (env n)) key = v → v ≠ [] →
  ∀ fuel, (n < fuel)%nat →
    get_blocking fuel env p key = Some (v, set_do_exit p 0).
Proof.
  intros Hquiet Hempty Hv Hne fuel Hfuel. unfold Params.get_blocking. simpl.
  set (q := {| handler_SIGINT := params_sig_handler;
               handler_SIGTERM := params_sig_handler;
               params_do_exit := 0 |}).
  rewrite (get_poll_more_fuel (S n) fuel env 0%nat q _ [] (v, q)); [done|lia|].
  apply get_poll_first_value; try done.
  - intros j Hj. apply Hquiet. lia.
  - intros j Hj. apply Hempty. lia.
Qed.

(** X18: a blocking get has no timeout.  With no signal delivered and
    nothing but empty reads it is still polling whatever fuel it is given. *)
Theorem blocking_get_never_times_out env p key :
  (∀ i, delivered (env i) = []) →
  (∀ i, get (seen (env i)) key = []) →
  ∀ fuel, get_blocking fuel env p key = None.
Proof.
  intros Hquiet Hempty fuel. unfold Params.get_blocking. simpl.
  by rewrite get_poll_waits.
Qed.

(** X19: what a return of the blocking get means.  An empty result is
    returned only on cancellation, with [params_do_exit] at 1; any other
    result is the contents the key's file had at one of the polls. *)
Theorem blocking_get_result env p key fuel v p' :
  get_blocking fuel env p key = Some (v, p') →
  (v = [] → params_do_exit p' = 1)
  ∧ (v ≠ [] → ∃ j, (j < fuel)%nat ∧ v = get (seen (env j)) key).
Proof.
  unfold Params.get_blocking. simpl.
  destruct (get_poll _ _ _ _ _ _) as [[v0 q']|] eqn:Hpoll; [|done].
  intros H. simplify_eq. simpl.
  apply get_poll_exit in Hpoll as [[Hv Hp]|(Hv & Hp & j & Hj & Hvj)]; auto.
  - split; [done|]. intros Hne. by destruct Hne.
  - split; [by intros Hnil|]. intros _. exists j. split; [lia|done].
Qed.

End BlockingMore.

(** ** Further worked cases *)

Lemma put_success_state_witness :
  (Params.put sample_root put_no_faults sample_fs "DongleId"
     (bytes_of "abc123")).2
  = <[sample_root +:+ "/d/" +:+ "DongleId" := File (bytes_of "abc123")]>
      (FileLock_lock (Params.put_lock put_no_faults) sample_fs
         (sample_root +:+ "/.lock")).
Proof.
  apply (put_success_state sample_root put_no_faults sample_fs "DongleId"
           (bytes_of "abc123")).
  vm_compute. reflexivity.
Defined.

Lemma put_failure_leaves_no_trace_witness :
  (Params.put sample_root put_rename_fails sample_fs "DongleId"
     (bytes_of "abc123")).2
  = FileLock_lock (Params.put_lock put_rename_fails) sample_fs
      (sample_root +:+ "/.lock").
Proof.
  apply (put_failure_leaves_no_trace sample_root put_rename_fails sample_fs
           "DongleId" (bytes_of "abc123") RenameFailure).
  - vm_compute. reflexivity.
  - reflexivity.
Defined.

Lemma put_leaks_temp_file_witness :
  ∃ written,
    (Params.put sample_root put_short_write_no_cleanup sample_fs "DongleId"
       (bytes_of "abc123")).2
      !! ((sample_root +:+ "/.tmp_value_") +:+ "a1B2c3")
    = Some (File written)
    ∧ written `prefix_of` bytes_of "abc123".
Proof.
  apply (put_leaks_temp_file sample_root put_short_write_no_cleanup sample_fs
           "DongleId" (bytes_of "abc123") ShortWrite "a1B2c3" EACCES).
  - vm_compute. reflexivity.
  - discriminate.
  - reflexivity.
  - reflexivity.
Defined.

Lemma remove_success_state_witness :
  (∃ n, sample_fs !! (sample_root +:+ "/d/" +:+ "DongleId") = Some n
        ∧ n ≠ Dir)
  ∧ Params.remove_unlink remove_no_faults = None
  ∧ fsync_dir (Params.remove_fsync_dir remove_no_faults)
      (sample_root +:+ "/d") = 0
  ∧ (Params.remove sample_root remove_no_faults sample_fs "DongleId").2
    = delete (sample_root +:+ "/d/" +:+ "DongleId")
        (FileLock_lock (Params.remove_lock remove_no_faults) sample_fs
           (sample_root +:+ "/.lock")).
Proof.
  apply (remove_success_state sample_root remove_no_faults sample_fs
           "DongleId").
  vm_compute. reflexivity.
Defined.

Lemma remove_twice_fails_witness :
  (Params.remove sample_root remove_no_faults
     (Params.remove sample_root remove_no_faults sample_fs "DongleId").2
     "DongleId").1 = -1
  ∧ (Params.remove sample_root remove_no_faults
       (Params.remove sample_root remove_no_faults sample_fs "DongleId").2
       "DongleId").2
    = FileLock_lock (Params.remove_lock remove_no_faults)
        (Params.remove sample_root remove_no_faults sample_fs "DongleId").2
        (sample_root +:+ "/.lock").
Proof.
  apply (remove_twice_fails sample_root remove_no_faults remove_no_faults
           sample_fs "DongleId").
  vm_compute. reflexivity.
Defined.

Lemma put_then_remove_restores_witness :
  Params.remove sample_root remove_no_faults
    (Params.put sample_root put_no_faults sample_fs "CarVin"
       (bytes_of "1HGCM82633A")).2 "CarVin"
  = (fsync_dir (Params.remove_fsync_dir remove_no_faults)
       (sample_root +:+ "/d"),
     FileLock_lock (Params.remove_lock remove_no_faults)
       (FileLock_lock (Params.put_lock put_no_faults) sample_fs
          (sample_root +:+ "/.lock"))
       (sample_root +:+ "/.lock")).
Proof.
  apply (put_then_remove_restores sample_root put_no_faults remove_no_faults
           sample_fs "CarVin" (bytes_of "1HGCM82633A")).
  - vm_compute. reflexivity.
  - vm_compute. reflexivity.
  - reflexivity.
Defined.

Lemma clearAll_refused_unlink_keeps_value_witness :
  Params.get sample_root
    (Params.clearAll sample_root clear_vin_denied sample_keys sample_fs_route
       16) "CarVin"
  = Params.get sample_root sample_fs_route "CarVin"
  ∧ Params.get sample_root
      (Params.clearAll sample_root clear_vin_denied sample_keys
         sample_fs_route 16) "CurrentRoute" = [].
Proof.
  destruct (clearAll_refused_unlink_keeps_value sample_root clear_vin_denied
              sample_keys sample_fs_route 16 "CarVin" 28 EACCES)
    as [Hkept Hothers].
  - vm_compute. reflexivity.
  - vm_compute. reflexivity.
  - split; [exact Hkept|].
    apply (Hothers "CurrentRoute" 20).
    + vm_compute. reflexivity.
    + vm_compute. discriminate.
    + vm_compute. reflexivity.
Defined.

Lemma registry_entries_kept_witness :
  w_keys (sample_world_after_getKeyType) !! "DongleId" = Some 2
  ∧ (w_keys sample_world !! "NotAKey" = Some 0
     ∨ (GetKeyType "NotAKey" = GetKeyType "NotAKey" ∧ 0 = 0))
  ∧ (getKeyType (w_keys sample_world) "CarVin").1
    = default 0 (w_keys sample_world !! "CarVin").
Proof.
  destruct (registry_entries_kept sample_root (GetKeyType "NotAKey")
              sample_world sample_world_after_getKeyType)
    as (Hkept & Hnew & Hanswer).
  - reflexivity.
  - split; [|split].
    + apply Hkept. vm_compute. reflexivity.
    + apply Hnew. vm_compute. reflexivity.
    + apply Hanswer.
Defined.

Lemma manager_start_clears_all_but_persistent_witness :
  (28 = 2
   ∧ Params.get sample_root
       (Params.clearAll sample_root clear_no_faults sample_keys sample_fs_vin
          4) "CarVin"
     = Params.get sample_root sample_fs_vin "CarVin")
  ∨ (Z.land 28 4 = 4
     ∧ Params.get sample_root
         (Params.clearAll sample_root clear_no_faults sample_keys
            sample_fs_vin 4) "CarVin" = []).
Proof.
  apply (manager_start_clears_all_but_persistent 2 4 8 16 32 64 sample_root
           clear_no_faults sample_fs_vin "CarVin" 28).
  - reflexivity.
  - discriminate.
  - vm_compute. reflexivity.
  - reflexivity.
Defined.

Lemma create_params_path_keeps_files_witness :
  (create_params_path boot_no_faults sample_fs_no_link sample_root
     (sample_root +:+ "/d")).2 !! "/data/params/d/DongleId"
  = Some (File (bytes_of "old")).
Proof.
  apply (create_params_path_keeps_files boot_no_faults sample_fs_no_link
           sample_root (sample_root +:+ "/d")).
  vm_compute. reflexivity.
Defined.

Lemma blocking_get_first_value_witness :
  Params.get_blocking sample_root 5 sample_ticks_value sample_process
    "CarVin"
  = Some (bytes_of "1HGCM82633A", set_do_exit sample_process 0).
Proof.
  apply (blocking_get_first_value sample_root sample_ticks_value
           sample_process "CarVin" 1 (bytes_of "1HGCM82633A")).
  - intros i Hi. reflexivity.
  - intros i Hi. destruct i as [|i]; [vm_compute; reflexivity|lia].
  - vm_compute. reflexivity.
  - discriminate.
  - lia.
Defined.

Lemma blocking_get_never_times_out_witness :
  Params.get_blocking sample_root 1000 sample_ticks_quiet sample_process
    "CarVin" = None.
Proof.
  apply (blocking_get_never_times_out sample_root sample_ticks_quiet
           sample_process "CarVin").
  - intros i. reflexivity.
  - intros i. reflexivity.
Defined.

Lemma blocking_get_result_witness :
  params_do_exit {| handler_SIGINT := user_handler 1;
                    handler_SIGTERM := SIG_DFL;
                    params_do_exit := 1 |} = 1
  ∧ ∃ j, (j < 5)%nat
         ∧ bytes_of "1HGCM82633A"
           = Params.get sample_root (seen (sample_ticks_value j)) "CarVin".
Proof.
  split.
  - apply (blocking_get_result sample_root sample_ticks sample_process
             "CarVin" 3 []); [vm_compute; reflexivity|reflexivity].
  - apply (blocking_get_result sample_root sample_ticks_value sample_process
             "CarVin" 5 (bytes_of "1HGCM82633A") (set_do_exit sample_process 0));
      [vm_compute; reflexivity|discriminate].
Defined.

Lemma ensure_params_path_publish_state_witness :
  ensure_params_path boot_no_faults sample_fs_root_only sample_root
  = Some (<[sample_root +:+ "/d"
            := Link ((sample_root +:+ "/.tmp_") +:+ "Qx7Lp2")]>
            (<[(sample_root +:+ "/.tmp_") +:+ "Qx7Lp2" := Dir]>
               sample_fs_root_only))
  ∧ ensure_params_path (with_rename boot_no_faults (Some EEXIST))
      sample_fs_root_only sample_root
    = Some (<[((sample_root +:+ "/.tmp_") +:+ "Qx7Lp2") +:+ ".link"
              := Link ((sample_root +:+ "/.tmp_") +:+ "Qx7Lp2")]>
              (<[(sample_root +:+ "/.tmp_") +:+ "Qx7Lp2" := Dir]>
                 sample_fs_root_only)).
Proof.
  split.
  - apply (ensure_params_path_publish_state boot_no_faults
             sample_fs_root_only sample_root "Qx7Lp2");
      vm_compute; reflexivity.
  - apply (ensure_params_path_publish_state
             (with_rename boot_no_faults (Some EEXIST))
             sample_fs_root_only sample_root "Qx7Lp2");
      vm_compute; reflexivity.
Defined.

(** * Names that are paths *)

(** ** Resolution of the paths the store builds *)

Lemma components_nonempty path : components path ≠ [].
Proof.
  destruct path as [|a rest]; simpl; [done|].
  destruct (Ascii.eqb a "/"); [done|]. by destruct (components rest).
Qed.

Lemma components_slash (p q : string) :
  components (p +:+ String "/" q) = (components p ++ components q)%list.
Proof.
  induction p as [|a p IH]; [done|].
  change (components (String a (p +:+ String "/" q))
          = (components (String a p) ++ components q)%list).
  simpl. destruct (Ascii.eqb a "/"); [by rewrite IH|].
  rewrite IH. pose proof (components_nonempty p).
  by destruct (components p).
Qed.

Lemma components_name (c : string) : has_slash c = false → components c = [c].
Proof.
  induction c as [|a c IH]; simpl; [done|].
  intros H. apply orb_false_iff in H as [Ha Hc]. rewrite Ha.
  by rewrite IH.
Qed.

Lemma walk_name stack (c : string) :
  is_plain_name c = true → walk stack c = (stack ++ [c])%list.
Proof.
  unfold is_plain_name, walk. intros H.
  repeat (apply andb_true_iff in H as [H ?]).
  by destruct (String.eqb c ""), (String.eqb c "."), (String.eqb c "..").
Qed.

Lemma join_snoc stack (c : string) :
  join (stack ++ [c])%list = join stack +:+ "/" +:+ c.
Proof.
  unfold join. rewrite foldr_app. simpl.
  induction stack as [|c' stack IH]; simpl.
  - change ("/" +:+ c +:+ "" = "/" +:+ c). by rewrite append_empty_r.
  - rewrite IH. by rewrite !append_assoc.
Qed.

(** A plain name under a directory resolves to that name under what the
    directory resolves to. *)
Lemma normalize_child (dir c : string) :
  is_plain_name c = true →
  normalize (dir +:+ "/" +:+ c) = normalize dir +:+ "/" +:+ c.
Proof.
  intros Hc. unfold normalize.
  change (dir +:+ "/" +:+ c) with (dir +:+ String "/" c).
  rewrite components_slash, (components_name c).
  - rewrite foldl_app. simpl. by rewrite walk_name, join_snoc.
  - unfold is_plain_name in Hc. apply andb_true_iff in Hc as [_ Hc].
    by apply negb_true_iff in Hc.
Qed.

Section PlainNames.

  Variable params_path : string.

Lemma normalize_key_path k :
  is_plain_name k = true →
  normalize (params_path +:+ "/d/" +:+ k)
  = normalize params_path +:+ "/d/" +:+ k.
Proof.
  intros Hk.
  change (params_path +:+ "/d/" +:+ k)
    with (params_path +:+ ("/" +:+ "d") +:+ ("/" +:+ k)).
  rewrite <- (append_assoc params_path).
  rewrite normalize_child by done.
  rewrite normalize_child by done.
  by rewrite append_assoc.
Qed.

Lemma normalize_lock_path :
  normalize (params_path +:+ "/.lock") = normalize params_path +:+ "/.lock".
Proof.
  change (params_path +:+ "/.lock") with (params_path +:+ "/" +:+ ".lock").
  by rewrite normalize_child.
Qed.

Lemma normalize_tmp_value_path suffix :
  has_slash suffix = false →
  normalize ((params_path +:+ "/.tmp_value_") +:+ suffix)
  = (normalize params_path +:+ "/.tmp_value_") +:+ suffix.
Proof.
  intros Hs. rewrite !append_assoc.
  change (params_path +:+ "/.tmp_value_" +:+ suffix)
    with (params_path +:+ "/" +:+ (".tmp_value_" +:+ suffix)).
  rewrite normalize_child; [done|].
  unfold is_plain_name.
  change (has_slash (".tmp_value_" +:+ suffix)) with (has_slash suffix).
  by rewrite Hs.
Qed.

End PlainNames.

(** ** The two embeddings agree on plain names *)

(** Where the paths a put hands to the system calls resolve to the same
    names under a root, the call over resolved paths is the call over the
    paths as written from that root. *)
Lemma resolving_put_fixed resolve params_path root e (fs : filesystem) key
    (value : list byte) :
  (∀ suffix, Params.put_mkstemp e = Some suffix →
             resolve ((params_path +:+ "/.tmp_value_") +:+ suffix)
             = (root +:+ "/.tmp_value_") +:+ suffix) →
  resolve (params_path +:+ "/.lock") = root +:+ "/.lock" →
  resolve (params_path +:+ "/d/" +:+ key) = root +:+ "/d/" +:+ key →
  Resolving.put resolve params_path e fs key value
  = Params.put root e fs key value.
Proof.
  intros Htmp Hlock Hkey.
  unfold Resolving.put, Params.put, mkstemp_resolved, mkstemp.
  destruct (Params.put_mkstemp e) as [suffix|]; [|done].
  cbv zeta. rewrite (Htmp suffix eq_refl).
  destruct (fs !! _); [done|]. cbv beta iota.
  by rewrite !(Htmp suffix eq_refl), Hlock, Hkey.
Qed.

Lemma resolving_remove_fixed resolve params_path root e (fs : filesystem)
    key :
  resolve (params_path +:+ "/.lock") = root +:+ "/.lock" →
  resolve (params_path +:+ "/d/" +:+ key) = root +:+ "/d/" +:+ key →
  Resolving.remove resolve params_path e fs key = Params.remove root e fs key.
Proof.
  intros Hlock Hkey. unfold Resolving.remove, Params.remove.
  by rewrite Hlock, Hkey.
Qed.

Lemma resolving_get_fixed resolve params_path root (fs : filesystem) key :
  resolve (params_path +:+ "/d/" +:+ key) = root +:+ "/d/" +:+ key →
  Resolving.get resolve params_path fs key = Params.get root fs key.
Proof. intros Hkey. unfold Resolving.get, Params.get. by rewrite Hkey. Qed.

(** With no resolution at all the two embeddings are the same code. *)
Lemma resolving_literal params_path pe re (fs : filesystem) key
    (value : list byte) :
  Resolving.put id params_path pe fs key value
  = Params.put params_path pe fs key value
  ∧ Resolving.remove id params_path re fs key
    = Params.remove params_path re fs key
  ∧ Resolving.get id params_path fs key = Params.get params_path fs key.
Proof.
  split; [|split].
  - by apply resolving_put_fixed.
  - by apply resolving_remove_fixed.
  - by apply resolving_get_fixed.
Qed.

(** ** The frame of put and remove *)

(** C10, as amended: for two distinct key names that are plain file names,
    a put or a remove on one leaves what a read of the other returns
    unchanged, whatever the outcome of the call; mkstemp filling its
    template, as it does, with characters other than '/'.  A name that is a
    path is resolved by the kernel and can be another name of the same
    file. *)
Theorem put_remove_frame_plain_names params_path pe re (fs : filesystem)
    k k' (value : list byte) :
  (∀ suffix, Params.put_mkstemp pe = Some suffix → has_slash suffix = false) →
  is_plain_name k = true →
  is_plain_name k' = true →
  k ≠ k' →
  Resolving.get normalize params_path
    (Resolving.put normalize params_path pe fs k value).2 k'
  = Resolving.get normalize params_path fs k'
  ∧ Resolving.get normalize params_path
      (Resolving.remove normalize params_path re fs k).2 k'
    = Resolving.get normalize params_path fs k'.
Proof.
  intros Hsuffix Hk Hk' Hne.
  set (root := normalize params_path).
  rewrite (resolving_put_fixed normalize params_path root),
    (resolving_remove_fixed normalize params_path root),
    !(resolving_get_fixed normalize params_path root);
    auto using normalize_key_path, normalize_lock_path,
               normalize_tmp_value_path.
  split; apply read_file_ext.
  - pose proof (put_outcome root pe fs k value) as H.
    destruct (put_failure root pe fs value).
    + by destruct H as [_ ->].
    + destruct H as (_ & _ & H). by apply H.
  - destruct (remove_outcome root re fs k) as [[_ H]|(_ & _ & _ & H)];
      [done|by apply H].
Qed.

(** Resolution drops empty components and ".", and goes up on ".."; the top
    directory itself comes out as the empty string. *)
Example normalize_sample :
  normalize "/data//params/./d/../d/DongleId" = "/data/params/d/DongleId"
  ∧ normalize "/data/params/d/../.lock" = "/data/params/.lock"
  ∧ normalize "/.." = "".
Proof. vm_compute. done. Qed.

(** C10 as stated fails here: "./CarVin" and "CarVin" are two names of one
    file, so a put under the first replaces what a read of the second
    returns; and a remove of "../d/DongleId" deletes the file of DongleId. *)
Lemma path_like_name_breaks_frame :
  normalize "/data/params/d/./CarVin" = "/data/params/d/CarVin"
  ∧ Resolving.get normalize sample_root sample_fs_vin "CarVin"
    = bytes_of "1HGCM82633A"
  ∧ Resolving.get normalize sample_root
      (Resolving.put normalize sample_root put_no_faults sample_fs_vin
         "./CarVin" (bytes_of "abc123")).2 "CarVin"
    = bytes_of "abc123"
  ∧ Resolving.get normalize sample_root sample_fs_vin "DongleId"
    = bytes_of "old"
  ∧ Resolving.get normalize sample_root
      (Resolving.remove normalize sample_root remove_no_faults sample_fs_vin
         "../d/DongleId").2 "DongleId"
    = []
  ∧ ¬ frame_for_all_names sample_root.
Proof.
  split; [by vm_compute|]. split; [by vm_compute|]. split; [by vm_compute|].
  split; [by vm_compute|]. split; [by vm_compute|].
  intros H.
  destruct (H put_no_faults remove_no_faults sample_fs_vin "./CarVin" "CarVin"
              (bytes_of "abc123")) as [Hput _]; [discriminate|].
  vm_compute in Hput. discriminate Hput.
Qed.

Lemma put_remove_frame_plain_names_witness :
  Resolving.get normalize sample_root
    (Resolving.put normalize sample_root put_no_faults sample_fs_vin
       "DongleId" (bytes_of "abc123")).2 "CarVin"
  = Resolving.get normalize sample_root sample_fs_vin "CarVin"
  ∧ Resolving.get normalize sample_root
      (Resolving.remove normalize sample_root remove_no_faults sample_fs_vin
         "DongleId").2 "CarVin"
    = Resolving.get normalize sample_root sample_fs_vin "CarVin".
Proof.
  apply (put_remove_frame_plain_names sample_root put_no_faults
           remove_no_faults sample_fs_vin "DongleId" "CarVin"
           (bytes_of "abc123")).
  - intros suffix Hpick. vm_compute in Hpick. injection Hpick as <-.
    reflexivity.
  - reflexivity.
  - reflexivity.
  - discriminate.
Defined.
